(** * crop-seq: the gRNA screen analysis of [src/screen_dynamics.py]

    A shallow embedding of the data path of the script: the guide filter
    ([filter_gRNAs]), the per-column normalisation ([normalize_by_total]),
    the sensitivity score ([screen_zscore] and the [zez] summary) and the
    rank and colour assignment of the comparator ([gRNA_scatter],
    [gRNA_maplot], [gRNA_rank]).

    Conventions of the embedding.
    - A pandas frame is an index of guide ids and a list of named columns
      over that index.  Guide ids are unique in a frame (the frames come out
      of [pivot_table]), so label selection [.ix[labels]] is row filtering.
    - Counts are exact rationals; [NaN], the missing-value marker, is [None].
      Floating-point rounding is not modelled.  Where the script divides
      (normalisation) the IEEE special values are kept: see [float64].
    - Fold-changes, which need logarithms, are over [R].
    - The sensitivity score is embedded twice: as the code runs it, in
      binary64 ([Binary64]), and as the formula it computes, read over [R].
    - A Python exception is a [Raised] result.
    - Plotting and file output have no influence on the values computed and
      are left out. *)

From Stdlib Require Import String Ascii Bool Arith ZArith QArith Qround.
From Stdlib Require Import Lia Lra Reals List Permutation.
From Stdlib Require Lqa.
From Corelib Require PrimFloat.
Import ListNotations.

Set Implicit Arguments.

(** ** Python results *)

(** The exceptions the script can raise.  [NameError] stands for its
    subclass [UnboundLocalError] too, which is what reading a local variable
    that no branch has assigned raises. *)
Inductive exn : Type :=
| IndexError
| KeyError
| NameError
| ValueError
| AttributeError.

Inductive result (A : Type) : Type :=
| Returned (a : A)
| Raised (e : exn).

Arguments Returned {A} a.
Arguments Raised {A} e.

Definition bind {A B : Type} (r : result A) (k : A -> result B) : result B :=
  match r with
  | Returned a => k a
  | Raised e => Raised e
  end.

Notation "x <- r ;; k" := (bind r (fun x => k))
  (at level 61, r at next level, right associativity).

Fixpoint mapM {A B : Type} (f : A -> result B) (l : list A) : result (list B) :=
  match l with
  | [] => Returned []
  | a :: l' => b <- f a ;; bs <- mapM f l' ;; Returned (b :: bs)
  end.

(** ** Strings *)

Local Open Scope string_scope.

(** [pat in s] of Python, and [str.contains(pat)] of pandas for a pattern
    without regular-expression operators. *)
Fixpoint contains (pat s : string) : bool :=
  if String.prefix pat s then true
  else match s with
       | EmptyString => false
       | String _ s' => contains pat s'
       end.

(** [label in labels], [Index.isin]. *)
Definition isin (r : string) (labels : list string) : bool :=
  existsb (String.eqb r) labels.

(** ** Frames *)

Record DataFrame (A : Type) : Type := mkDataFrame {
  index : list string;
  cols : list (string * list A)
}.

Arguments mkDataFrame {A} index cols.

Definition columns {A} (df : DataFrame A) : list string := map fst (cols df).

(** The labelled cells of a frame: (guide id, column name, value). *)
Definition entries {A} (df : DataFrame A) : list (string * string * A) :=
  flat_map (fun nc => map (fun rv => (fst rv, fst nc, snd rv))
                          (combine (index df) (snd nc)))
           (cols df).

(** [df.values]: the rows of the frame, in index order. *)
Definition values {A} (nan : A) (df : DataFrame A) : list (list A) :=
  map (fun i => map (fun nc => nth i (snd nc) nan) (cols df))
      (seq 0 (length (index df))).

(** The values of a column at the rows whose label satisfies [keep]. *)
Definition select {A} (keep : string -> bool) (idx : list string) (c : list A)
  : list A :=
  map snd (filter (fun rv => keep (fst rv)) (combine idx c)).

(** [df.ix[df.index[mask]]] on a frame with unique labels. *)
Definition select_rows {A} (keep : string -> bool) (df : DataFrame A)
  : DataFrame A :=
  {| index := filter keep (index df);
     cols := map (fun nc => (fst nc, select keep (index df) (snd nc))) (cols df) |}.

(** [df.drop(label, axis=1)]. *)
Definition drop_column {A} (label : string) (df : DataFrame A) : DataFrame A :=
  {| index := index df;
     cols := filter (fun nc => negb (String.eqb (fst nc) label)) (cols df) |}.

(** ** Filter *)

Section Filter.

Local Open Scope Q_scope.

Definition cell : Type := option Q.

(** A column with the rows satisfying [p] set to NaN. *)
Definition mask_rows (p : string -> bool) (idx : list string) (c : list cell)
  : list cell :=
  map (fun rv => if p (fst rv) then None else snd rv) (combine idx c).

(** [frame.loc[rows, :] = nan]. *)
Definition set_rows_nan (rows : list string) (df : DataFrame cell)
  : DataFrame cell :=
  {| index := index df;
     cols := map (fun nc => (fst nc,
                             mask_rows (fun r => isin r rows) (index df) (snd nc)))
                 (cols df) |}.

(** [frame.loc[rows, col] = nan]. *)
Definition set_loc_nan (rows : list string) (col : string) (df : DataFrame cell)
  : DataFrame cell :=
  {| index := index df;
     cols := map (fun nc =>
                    if String.eqb (fst nc) col
                    then (fst nc,
                          mask_rows (fun r => isin r rows) (index df) (snd nc))
                    else nc)
                 (cols df) |}.

(** The guides that were not used in the screen. *)
Definition default_filter_out : list string :=
  [ "CTRL00717"; "CTRL00728"; "CTRL00783"; "CTRL00801";
    "CTRL00851"; "CTRL00859"; "CTRL00868"; "CTRL00872";
    "CTRL00878"; "CTRL00881"; "CTRL00969"; "CTRL00972";
    "CTRL00983" ] ++
  [ "Essential_library_ABL1_1"; "Essential_library_ABL1_2"; "Essential_library_ABL1_3";
    "Essential_library_MAPK1_1"; "Essential_library_MAPK1_2"; "Essential_library_MAPK1_3";
    "Essential_library_GATA1_1"; "Essential_library_GATA1_2"; "Essential_library_GATA1_3";
    "Essential_library_BRCA2_1"; "Essential_library_BRCA2_2"; "Essential_library_BRCA2_3";
    "Essential_library_PARP1_1"; "Essential_library_PARP1_2"; "Essential_library_PARP1_3" ].

(** The labels of [df.index[df.index.str.contains(pat)].tolist()]. *)
Definition labels_containing {A} (pat : string) (df : DataFrame A) : list string :=
  filter (contains pat) (index df).

(** One iteration of the loop "Filter opposite library", on the pair
    (working frame [df], reference frame [filtered]). *)
Definition opposite_library_step
  (st : DataFrame cell * DataFrame cell) (col : string)
  : DataFrame cell * DataFrame cell :=
  let (df, filtered) := st in
  if contains "TCR" col || contains "Jurkat" col then
    (set_loc_nan (labels_containing "Wnt" df) col df,
     set_loc_nan (labels_containing "Tcr" filtered) col filtered)
  else if contains "WNT" col || contains "HEK" col then
    (set_loc_nan (labels_containing "Tcr" df) col df,
     set_loc_nan (labels_containing "Wnt" filtered) col filtered)
  else st.

(** [filter_gRNAs] up to the point where the noise is measured: the working
    frame [df] and the reference frame [filtered]. *)
Definition filter_frames (df : DataFrame cell) (filter_out : option (list string))
  : DataFrame cell * DataFrame cell :=
  let filtered := df in
  let filter_out :=
    match filter_out with
    | None => default_filter_out
    | Some l => l
    end in
  let df := select_rows (fun r => negb (isin r filter_out)) df in
  let all_ctrls :=
    filter (fun r => contains "Essential" r || contains "CTRL" r) (index filtered) in
  let others := filter (fun r => negb (isin r filter_out)) all_ctrls in
  let filtered := set_rows_nan others filtered in
  let st := fold_left opposite_library_step (columns df) (df, filtered) in
  if isin "plasmid_pool_ESS" (columns (fst st)) then
    (drop_column "plasmid_pool_ESS" (fst st),
     drop_column "plasmid_pool_ESS" (snd st))
  else st.

(** [x[~np.isnan(x)]]. *)
Fixpoint notnan (x : list cell) : list Q :=
  match x with
  | [] => []
  | None :: x' => notnan x'
  | Some v :: x' => v :: notnan x'
  end.

Fixpoint insert (v : Q) (l : list Q) : list Q :=
  match l with
  | [] => [v]
  | w :: l' => if Qle_bool v w then v :: l else w :: insert v l'
  end.

Definition sort (l : list Q) : list Q := fold_right insert [] l.

(** [np.percentile(a, q)] with the default linear interpolation.  On an
    empty array numpy raises [IndexError]. *)
Definition percentile (a : list Q) (q : Q) : result Q :=
  match a with
  | [] => Raised IndexError
  | _ :: _ =>
      let s := sort a in
      let n := Z.of_nat (length a) in
      let h := (inject_Z n - 1) * (q / 100) in
      let lo := Qfloor h in
      let hi := Z.min (lo + 1) (n - 1) in
      let g := h - inject_Z lo in
      let below := nth (Z.to_nat lo) s 0 in
      let above := nth (Z.to_nat hi) s 0 in
      Returned (Qred (below + g * (above - below)))
  end.

(** [df.where(df > bound, nan)]. *)
Definition where_gt (bound : Q) (df : DataFrame cell) : DataFrame cell :=
  {| index := index df;
     cols := map (fun nc =>
                    (fst nc,
                     map (fun v : cell =>
                            match v with
                            | Some x => if Qle_bool x bound then None else Some x
                            | None => None
                            end)
                         (snd nc)))
                 (cols df) |}.

(** The noise threshold of a reference frame. *)
Definition noise_threshold (filtered : DataFrame cell) : result Q :=
  percentile (notnan (concat (values None filtered))) 95.

Definition filter_gRNAs (df : DataFrame cell) (filter_out : option (list string))
  : result (DataFrame cell) :=
  let st := filter_frames df filter_out in
  lower_bound <- noise_threshold (snd st) ;;
  Returned (where_gt lower_bound (fst st)).

End Filter.

(** ** Normalizer *)

Section Normalizer.

Local Open Scope Q_scope.

(** The values a float takes in this script: NaN, the infinities and the
    finite numbers (exact; the sign of zero is not kept, sums of counts are
    never the negative zero). *)
Inductive float64 : Type :=
| NaN
| NInf
| Fin (q : Q)
| PInf.

Definition of_cell (v : cell) : float64 :=
  match v with
  | Some q => Fin q
  | None => NaN
  end.

Definition Qltb (a b : Q) : bool := negb (Qle_bool b a).

(** IEEE 754 addition, division and multiplication. *)
Definition fadd (x y : float64) : float64 :=
  match x, y with
  | NaN, _ | _, NaN => NaN
  | Fin a, Fin b => Fin (a + b)
  | PInf, NInf | NInf, PInf => NaN
  | PInf, _ | _, PInf => PInf
  | NInf, _ | _, NInf => NInf
  end.

Definition fdiv (x y : float64) : float64 :=
  match x, y with
  | NaN, _ | _, NaN => NaN
  | Fin a, Fin b =>
      if Qeq_bool b 0 then
        if Qeq_bool a 0 then NaN else if Qltb 0 a then PInf else NInf
      else Fin (a / b)
  | Fin _, (PInf | NInf) => Fin 0
  | (PInf | NInf), (PInf | NInf) => NaN
  | PInf, Fin b => if Qltb b 0 then NInf else PInf
  | NInf, Fin b => if Qltb b 0 then PInf else NInf
  end.

Definition fmul (x y : float64) : float64 :=
  match x, y with
  | NaN, _ | _, NaN => NaN
  | Fin a, Fin b => Fin (a * b)
  | Fin a, PInf | PInf, Fin a =>
      if Qeq_bool a 0 then NaN else if Qltb 0 a then PInf else NInf
  | Fin a, NInf | NInf, Fin a =>
      if Qeq_bool a 0 then NaN else if Qltb 0 a then NInf else PInf
  | PInf, PInf | NInf, NInf => PInf
  | PInf, NInf | NInf, PInf => NaN
  end.

(** [x.sum()] / [x.sum(skipna=True)] of a column of counts: the sum of the
    values that are not NaN (0 when there is none). *)
Definition sum_skipna (x : list cell) : Q :=
  fold_right Qplus 0 (notnan x).

(** The lambda of the normalisation: [(x / x.sum()) * 1e4]. *)
Definition normalize_column (x : list cell) : list float64 :=
  map (fun v => fmul (fdiv (of_cell v) (Fin (sum_skipna x))) (Fin 10000)) x.

(** [df.apply(lambda x: (x / x.sum()) * 1e4, axis=0)]: the function
    [normalize_by_total] and the three inline normalisations of the script. *)
Definition normalize_by_total (df : DataFrame cell) : result (DataFrame float64) :=
  Returned {| index := index df;
              cols := map (fun nc => (fst nc, normalize_column (snd nc))) (cols df) |}.

(** [Series.sum()] of a float column, NaN skipped. *)
Definition fsum_skipna (x : list float64) : float64 :=
  fold_right (fun v acc => match v with NaN => acc | _ => fadd v acc end) (Fin 0) x.

Definition is_finite (x : float64) : bool :=
  match x with
  | Fin _ => true
  | _ => false
  end.

End Normalizer.

(** ** Sensitivity scorer, in exact arithmetic

    The formula of [screen_zscore] read over the reals: what the code
    computes when no operation rounds. *)

Section Scorer.

Local Open Scope R_scope.

(** A series without missing values ([.dropna()]): labelled reals. *)
Definition series : Type := list (string * R).

Definition Rsum (l : list R) : R := fold_right Rplus 0 l.

(** [np.mean], [Series.mean]. *)
Definition mean (l : list R) : R := Rsum l / INR (length l).

(** Sum of squared deviations from the mean. *)
Definition sum_sq_dev (l : list R) : R :=
  Rsum (map (fun x => (x - mean l) * (x - mean l)) l).

(** [np.std]: the population standard deviation ([ddof=0]). *)
Definition np_std (l : list R) : R := sqrt (sum_sq_dev l / INR (length l)).

(** [Series.std()]: the sample standard deviation ([ddof=1]). *)
Definition pd_std (l : list R) : R := sqrt (sum_sq_dev l / (INR (length l) - 1)).

(** The lambda [Z] of [screen_zscore]. *)
Definition Z (pos neg : list R) : R :=
  1 - (3 * (np_std pos + np_std neg) / (Rabs (mean pos - mean neg))).

(** [series.ix[series.index[series.index.str.contains(pat)]]]. *)
Definition rows_containing (pat : string) (s : series) : series :=
  filter (fun kv => contains pat (fst kv)) s.

(** [(series - series.mean()) / series.std()]. *)
Definition standardize (s : series) : series :=
  map (fun kv => (fst kv, (snd kv - mean (map snd s)) / pd_std (map snd s))) s.

Definition screen_zscore (s : series) (z_score : bool) : R :=
  let s := if z_score then standardize s else s in
  let pos := rows_containing "Essential" s in
  let neg := rows_containing "CTRL" s in
  Z (map snd pos) (map snd neg).

End Scorer.

(** ** Sensitivity scorer, as the code runs it

    The values are binary64 floats and every operation rounds as the
    processor does; NaN is the missing value.  The order in which a
    reduction ([values.sum()]) adds the values of a series is the library's
    own: it is a parameter, [sum], of the scorer.  The drawing calls are
    left out, apart from the look-up [axis[i]] of the axis they draw on. *)

Module Binary64.

Import PrimFloat.
Local Open Scope float_scope.

(** A series: labelled floats. *)
Definition series : Type := list (string * float).

(** The float of a count of rows. *)
Fixpoint of_nat (n : nat) : float :=
  match n with
  | O => 0
  | S k => of_nat k + 1
  end.

(** A reduction that adds the values one after the other. *)
Definition in_order (l : list float) : float := fold_left add l 0.

Section Reduction.

(** [values.sum()]. *)
Variable sum : list float -> float.

(** [Series.mean()], which [np.mean] of a series calls. *)
Definition mean (l : list float) : float := sum l / of_nat (length l).

(** The variance of pandas ([nanops.nanvar]): NaN when there are no more
    values than [ddof], otherwise the mean, the squares [(avg - values)**2]
    and their sum over [count - ddof] (a difference of counts, exact). *)
Definition var (ddof : nat) (l : list float) : float :=
  if (length l <=? ddof)%nat then nan
  else
    let avg := mean l in
    sum (map (fun x => (avg - x) * (avg - x)) l) / of_nat (length l - ddof).

(** [Series.std(ddof=ddof)]: [np.std] of a series calls it with [ddof=0],
    [series.std()] has [ddof=1]. *)
Definition std (ddof : nat) (l : list float) : float := sqrt (var ddof l).

(** The lambda [Z] of [screen_zscore]. *)
Definition Z (pos neg : list float) : float :=
  1 - (3 * (std 0 pos + std 0 neg) / (abs (mean pos - mean neg))).

(** [series.ix[series.index[series.index.str.contains(pat)]]]. *)
Definition rows_containing (pat : string) (s : series) : series :=
  filter (fun kv => contains pat (fst kv)) s.

(** [(series - series.mean()) / series.std()]. *)
Definition standardize (s : series) : series :=
  map (fun kv => (fst kv, (snd kv - mean (map snd s)) / std 1 (map snd s))) s.

Definition screen_zscore (s : series) (z_score : bool) : float :=
  let s := if z_score then standardize s else s in
  let pos := rows_containing "Essential" s in
  let neg := rows_containing "CTRL" s in
  Z (map snd pos) (map snd neg).

(** [screen[col].dropna()]. *)
Definition dropna (idx : list string) (c : list float) : series :=
  filter (fun rv => negb (is_nan (snd rv))) (combine idx c).

(** A row of the summary table [zez]. *)
Record sensitivity : Type := mkSensitivity {
  timepoint : string;
  sample : string;
  z_score : float;
  id : string;
  efficiency : float
}.

(** The number of axes of the figure of a screen:
    [subplots(2 if name == "original" else 3,
              2 if name == "crop_screen" else 1)]. *)
Definition axes (name : string) : nat :=
  (if String.eqb name "original" then 2 else 3)
  * (if String.eqb name "crop_screen" then 2 else 1).

(** [axis[i]] of a figure with [n] axes. *)
Definition axis_at (n i : nat) : result unit :=
  if (i <? n)%nat then Returned tt else Raised IndexError.

(** The row [[name, col, z]] appended for a column. *)
Definition score_row (screen : DataFrame float) (name : string)
  (nc : string * list float) : string * string * float :=
  (name, fst nc, screen_zscore (dropna (index screen) (snd nc)) false).

(** The rows appended for one screen, in the order of
    [enumerate(screen.columns[::-1])]. *)
Definition zez_of_screen (screen : DataFrame float) (name : string)
  : result (list (string * string * float)) :=
  mapM (fun ic =>
          _ <- axis_at (axes name) (fst ic) ;;
          Returned (score_row screen name (snd ic)))
       (combine (seq 0 (length (cols screen))) (rev (cols screen))).

(** The columns [id] and [efficiency = 1 / -z_score] of a row. *)
Definition summary_row (row : string * string * float) : sensitivity :=
  match row with
  | (name, col, z) =>
      {| timepoint := name; sample := col; z_score := z;
         id := (name ++ " " ++ col)%string;
         efficiency := 1 / - z |}
  end.

(** The summary table: the rows of all screens, then the two columns.  A
    table without rows has no column to name: [zez.columns = [...]] raises
    [ValueError]. *)
Definition zez (screens : list (DataFrame float * string))
  : result (list sensitivity) :=
  rows <- mapM (fun sn => zez_of_screen (fst sn) (snd sn)) screens ;;
  match concat rows with
  | [] => Raised ValueError
  | _ :: _ => Returned (map summary_row (concat rows))
  end.

End Reduction.

(** Two floats no further apart than [eps]. *)
Definition within (eps x y : float) : Prop := leb (abs (x - y)) eps = true.

End Binary64.

(** ** Comparator *)

Section Comparator.

Local Open Scope R_scope.

(** A normalised frame of the comparator: reals, NaN is [None]. *)
Definition frame : Type := DataFrame (option R).

Definition lift2 (f : R -> R -> R) (a b : option R) : option R :=
  match a, b with
  | Some u, Some v => Some (f u v)
  | _, _ => None
  end.

(** [np.log2] on the positive numbers.  The counts are not negative, so the
    script only takes [np.log2(1 + x)] of numbers from 1 on; other arguments
    are treated as missing. *)
Definition log2 (a : option R) : option R :=
  match a with
  | Some y => if Rlt_dec 0 y then Some (ln y / ln 2) else None
  | None => None
  end.

(** [np.log2(1 + t) - np.log2(1 + r)] on one row. *)
Definition fold_change_cell (t r : option R) : option R :=
  lift2 Rminus (log2 (lift2 Rplus (Some 1) t)) (log2 (lift2 Rplus (Some 1) r)).

(** The value of [other] at the row labelled [r], NaN when there is none. *)
Definition lookup_row (r : string) (idx : list string) (c : list (option R))
  : option R :=
  match find (fun rv => String.eqb (fst rv) r) (combine idx c) with
  | Some rv => snd rv
  | None => None
  end.

(** [s1.join(s2)]: a left join on the index; overlapping column names are
    refused. *)
Definition join (s1 s2 : frame) : result frame :=
  if existsb (fun n => isin n (columns s1)) (columns s2) then Raised ValueError
  else Returned
         {| index := index s1;
            cols := cols s1 ++
                    map (fun nc => (fst nc,
                                    map (fun r => lookup_row r (index s2) (snd nc))
                                        (index s1)))
                        (cols s2) |}.

(** [x.iloc[perm]], for [perm] the outcome of
    [np.random.permutation(len(x))]. *)
Definition iloc (perm : list nat) (x : frame) : frame :=
  {| index := map (fun i => nth i (index x) ""%string) perm;
     cols := map (fun nc => (fst nc, map (fun i => nth i (snd nc) None) perm))
                 (cols x) |}.

(** [x[label]]. *)
Definition getcol (x : frame) (label : string) : result (list (option R)) :=
  match find (fun nc => String.eqb (fst nc) label) (cols x) with
  | Some nc => Returned (snd nc)
  | None => Raised KeyError
  end.

(** A series with missing values: the index of the frame it was taken from
    and its values. *)
Definition lseries : Type := list (string * option R).

(** [np.log2(1 + x[screen]) - np.log2(1 + x[reference])]. *)
Definition fold_change (x : frame) (screen reference : string) : result lseries :=
  t <- getcol x screen ;;
  r <- getcol x reference ;;
  Returned (combine (index x)
                    (map (fun tr => fold_change_cell (fst tr) (snd tr))
                         (combine t r))).

(** The branches on [prefix] and [screen] shared by the three plots.  The
    state is the frame [x] and the quantity assigned in a branch ([b] in
    [gRNA_scatter], [fc] in the others), which keeps its value of the
    previous iteration when no branch assigns it. *)
Section Branches.

Variable T : Type.
Variable measure : frame -> string -> string -> result T.

Definition against (excluded reference screen : string) (st : frame * option T)
  : result (frame * option T) :=
  let x := select_rows (fun r => negb (contains excluded r)) (fst st) in
  m <- measure x screen reference ;;
  Returned (x, Some m).

Definition when (b : bool) (f : frame * option T -> result (frame * option T))
  (st : frame * option T) : result (frame * option T) :=
  if b then f st else Returned st.

(** In the last branch the script reads the column labelled with the
    integer 0; the frames here have string labels only, for which pandas
    raises [KeyError]. *)
Definition branches (prefix screen : string) (st : frame * option T)
  : result (frame * option T) :=
  if contains "original" prefix then
    st <- when (contains "TCR" screen)
               (against "Wnt" "plasmid_pool_TCR" screen) st ;;
    when (contains "WNT" screen)
         (against "Tcr" "plasmid_pool_WNT" screen) st
  else if negb (contains "plasmid" prefix) then
    st <- when (contains "TCR" screen)
               (against "Wnt" "gDNA_Jurkat" screen) st ;;
    st <- when (contains "_4_WNT" screen)
               (against "Tcr" "gDNA_HEKclone4" screen) st ;;
    when (contains "_6_WNT" screen)
         (against "Tcr" "gDNA_HEKclone6" screen) st
  else Raised KeyError.

(** The frame [x] of an iteration and the state after the branches. *)
Definition shuffled_branches (perm : list nat) (s1 s2 : frame)
  (prefix screen : string) (carry : option T) : result (frame * option T) :=
  x <- join s1 s2 ;;
  branches prefix screen (iloc perm x, carry).

(** The loop [for i, screen in enumerate(s2.columns[::-1])]; [perms i] is
    the permutation drawn in iteration [i]. *)
Fixpoint iterate {Out : Type}
  (body : list nat -> nat -> string -> option T -> result (option T * Out))
  (perms : nat -> list nat) (i : nat) (screens : list string) (carry : option T)
  : result (list Out) :=
  match screens with
  | [] => Returned []
  | screen :: rest =>
      r <- body (perms i) i screen carry ;;
      outs <- iterate body perms (S i) rest (fst r) ;;
      Returned (snd r :: outs)
  end.

End Branches.

(** The four colours [sns.color_palette("colorblind")[0..3]]. *)
Inductive colour : Type :=
| colorblind0
| colorblind1
| colorblind2
| colorblind3.

(** The row of the frame [colors] for guide [r]. *)
Definition colour_flags (r : string) : list (colour * bool) :=
  [ (colorblind0, contains "Wnt" r);
    (colorblind1, contains "CTRL" r);
    (colorblind2, contains "Tcr" r);
    (colorblind3, contains "Ess" r) ].

(** [lambda x: x[x].index.tolist()[0]]. *)
Definition first_flagged (row : list (colour * bool)) : result colour :=
  match filter snd row with
  | [] => Raised IndexError
  | cb :: _ => Returned (fst cb)
  end.

Definition colour_of (r : string) : result colour :=
  first_flagged (colour_flags r).

(** [colors.apply(..., axis=1).tolist()] on the index of [x].  On a frame
    without rows [apply] gives back the empty frame, which has no
    [tolist]. *)
Definition colours (idx : list string) : result (list colour) :=
  match idx with
  | [] => Raised AttributeError
  | _ :: _ => mapM colour_of idx
  end.

(** [axis[i]] of the 3 x 2 grid of axes, flattened. *)
Definition axis (i : nat) : result unit :=
  if (i <? 6)%nat then Returned tt else Raised IndexError.

(** The current value of a variable assigned in a branch. *)
Definition assigned {T : Type} (v : option T) : result T :=
  match v with
  | Some t => Returned t
  | None => Raised NameError
  end.

Definition Rgtb (a b : R) : bool := if Rlt_dec b a then true else false.
Definition Reqb (a b : R) : bool := if Req_dec_T a b then true else false.

(** The number of values of [l], NaN apart, that satisfy [p]. *)
Definition count_values (p : R -> bool) (l : list (option R)) : nat :=
  length (filter (fun c : option R => match c with
                                      | Some w => p w
                                      | None => false
                                      end) l).

(** [Series.rank(ascending=False, method="first")]: the rank of a value is
    its place in decreasing order, equal values ranked in the order they
    appear in the series; NaN has no rank. *)
Definition rank_at (l : list (option R)) (i : nat) : option nat :=
  match nth i l None with
  | Some v => Some (1 + count_values (fun w => Rgtb w v) l
                      + count_values (Reqb v) (firstn i l))%nat
  | None => None
  end.

Definition rank_first_desc (l : list (option R)) : list (option nat) :=
  map (rank_at l) (seq 0 (length l)).

(** A point of a plot: the guide, its abscissa and ordinate, its colour. *)
Record point (X : Type) : Type := mkPoint {
  guide : string;
  abscissa : X;
  ordinate : option R;
  shade : colour
}.

Definition points {X : Type} (idx : list string) (xs : list X)
  (ys : list (option R)) (cs : list colour) : list (point X) :=
  map (fun p => match p with
                | (g, a, o, c) => mkPoint g a o c
                end)
      (combine (combine (combine idx xs) ys) cs).

(** [scatter(x, y)] refuses an [x] and a [y] of different sizes. *)
Definition same_size {A B : Type} (xs : list A) (ys : list B) : result unit :=
  if (length xs =? length ys)%nat then Returned tt else Raised ValueError.

(** One iteration of [gRNA_scatter]:
    [scatter(np.log2(1 + x[screen]), np.log2(1 + b), color=colors)]. *)
Definition gRNA_scatter_iteration (s1 s2 : frame) (prefix : string)
  (perm : list nat) (i : nat) (screen : string) (carry : option (list (option R)))
  : result (option (list (option R)) * list (point (option R))) :=
  st <- shuffled_branches (fun x _ reference => getcol x reference)
                          perm s1 s2 prefix screen carry ;;
  cs <- colours (index (fst st)) ;;
  _ <- axis i ;;
  t <- getcol (fst st) screen ;;
  b <- assigned (snd st) ;;
  _ <- same_size t b ;;
  Returned (snd st,
            points (index (fst st))
                   (map (fun v => log2 (lift2 Rplus (Some 1) v)) t)
                   (map (fun v => log2 (lift2 Rplus (Some 1) v)) b)
                   cs).

(** One iteration of [gRNA_maplot]: [scatter(M, fc, color=colors)].  The
    abscissa [M] is left out. *)
Definition gRNA_maplot_iteration (s1 s2 : frame) (prefix : string)
  (perm : list nat) (i : nat) (screen : string) (carry : option lseries)
  : result (option lseries * list (point unit)) :=
  st <- shuffled_branches fold_change perm s1 s2 prefix screen carry ;;
  fc <- assigned (snd st) ;;
  cs <- colours (index (fst st)) ;;
  _ <- axis i ;;
  Returned (snd st,
            points (map fst fc) (map (fun _ => tt) fc) (map snd fc) cs).

(** One iteration of [gRNA_rank]:
    [scatter(fc.rank(ascending=False, method="first"), fc, color=colors)]. *)
Definition gRNA_rank_iteration (s1 s2 : frame) (prefix : string)
  (perm : list nat) (i : nat) (screen : string) (carry : option lseries)
  : result (option lseries * list (point (option nat))) :=
  st <- shuffled_branches fold_change perm s1 s2 prefix screen carry ;;
  fc <- assigned (snd st) ;;
  cs <- colours (index (fst st)) ;;
  _ <- axis i ;;
  Returned (snd st,
            points (map fst fc) (rank_first_desc (map snd fc)) (map snd fc) cs).

Definition gRNA_scatter (perms : nat -> list nat) (s1 s2 : frame) (prefix : string)
  : result (list (list (point (option R)))) :=
  iterate (gRNA_scatter_iteration s1 s2 prefix) perms 0 (rev (columns s2)) None.

Definition gRNA_maplot (perms : nat -> list nat) (s1 s2 : frame) (prefix : string)
  : result (list (list (point unit))) :=
  iterate (gRNA_maplot_iteration s1 s2 prefix) perms 0 (rev (columns s2)) None.

(** After the loop [gRNA_rank] writes the table [xx], a local variable
    that only the first iteration assigns. *)
Definition gRNA_rank (perms : nat -> list nat) (s1 s2 : frame) (prefix : string)
  : result (list (list (point (option nat)))) :=
  outs <- iterate (gRNA_rank_iteration s1 s2 prefix) perms 0
                  (rev (columns s2)) None ;;
  match rev (columns s2) with
  | [] => Raised NameError
  | _ :: _ => Returned outs
  end.

End Comparator.

(** ** Vocabulary of the properties *)

(** The sub-library a sample column is taken for: the first test of the
    loop of [filter_gRNAs], and its second test when the first fails. *)
Definition tcr_column (c : string) : bool :=
  contains "TCR" c || contains "Jurkat" c.

Definition wnt_column (c : string) : bool :=
  contains "WNT" c || contains "HEK" c.

Definition wnt_only_column (c : string) : bool :=
  negb (tcr_column c) && wnt_column c.

(** No guide whose id contains [pat] has a value in a column of class [cls]. *)
Definition no_value (df : DataFrame cell) (pat : string) (cls : string -> bool)
  : Prop :=
  forall r c v,
    In (r, c, Some v) (entries df) ->
    contains pat r = true -> cls c = true -> False.

(** Sub-library exclusivity as the specification words it. *)
Definition exclusive (df : DataFrame cell) : Prop :=
  no_value df "Wnt" tcr_column /\ no_value df "Tcr" wnt_column.

(** The reference frame of a call, and the values its noise is measured on. *)
Definition working (df : DataFrame cell) (filter_out : option (list string))
  : DataFrame cell := fst (filter_frames df filter_out).

Definition reference (df : DataFrame cell) (filter_out : option (list string))
  : DataFrame cell := snd (filter_frames df filter_out).

Definition noise (df : DataFrame cell) (filter_out : option (list string))
  : list Q := notnan (concat (values None (reference df filter_out))).

(** The columns of a frame but the essential plasmid pool. *)
Definition but_plasmid_pool_ESS (names : list string) : list string :=
  filter (fun n => negb (String.eqb n "plasmid_pool_ESS")) names.

(** What [df.where(df > bound, nan)] leaves of a cell. *)
Definition above (bound : Q) (v : cell) : cell :=
  match v with
  | Some x => if Qle_bool x bound then None else Some x
  | None => None
  end.

(** The rescaled cell, for a column total [s] that is not zero. *)
Definition rescaled (s : Q) (v : cell) : float64 :=
  match v with
  | Some x => Fin (x / s * 10000)%Q
  | None => NaN
  end.

(** The cell that comes out of a division by a zero total. *)
Definition divided_by_zero (v : cell) : float64 :=
  match v with
  | Some x => if Qeq_bool x 0%Q then NaN else if Qltb 0%Q x then PInf else NInf
  | None => NaN
  end.

(** A guide id that matches none of the four colour patterns. *)
Definition uncoloured (r : string) : Prop :=
  contains "Wnt" r = false /\ contains "CTRL" r = false /\
  contains "Tcr" r = false /\ contains "Ess" r = false.

(** A row filter of the comparator never removes a guide that belongs to
    neither sub-library. *)
Definition keeps_strays (keep : string -> bool) : Prop :=
  forall r, contains "Wnt" r = false -> contains "Tcr" r = false ->
            keep r = true.

(** What the branches of an iteration do to its state: the rows of [x] are
    filtered, and the quantity is either left as it was or measured on the
    frame [x] that comes out. *)
Definition narrowed {T : Type} (measure : frame -> string -> string -> result T)
  (screen : string) (st st' : frame * option T) : Prop :=
  (exists keep, keeps_strays keep /\
                index (fst st') = filter keep (index (fst st))) /\
  (st' = st \/
   exists reference m,
     measure (fst st') screen reference = Returned m /\ snd st' = Some m).

(** ** Sample frames *)

(** A guide of the Wnt sub-library counted in a TCR sample. *)
Definition wnt_in_tcr : DataFrame cell :=
  mkDataFrame ["Wnt_1"] [("TCR_1", [Some 7%Q])].

(** A sample column whose name matches both tests of the loop. *)
Definition both_names : DataFrame cell :=
  mkDataFrame ["Tcr_1"; "Wnt_1"] [("TCR_WNT", [Some 9%Q; Some 1%Q])].

(** The example of the specification: the excluded guide "CTRL001" with
    count 50 and "Essential_X_1" with count 500, and two guides of the
    sample's own sub-library at and just above the threshold. *)
Definition noise_example : DataFrame cell :=
  mkDataFrame ["CTRL001"; "Essential_X_1"; "Tcr_a"; "Tcr_b"]
    [("S_TCR", [Some 50%Q; Some 500%Q; Some 50%Q; Some 51%Q]);
     ("plasmid_pool_ESS", [Some 1%Q; Some 2%Q; Some 3%Q; Some 4%Q])].

(** A frame of control guides only, none of them in the filter-out list. *)
Definition controls_only : DataFrame cell :=
  mkDataFrame ["CTRL00001"; "Essential_library_X_1"]
    [("S_TCR", [Some 12%Q; Some 30%Q])].

(** Two columns that normalisation cannot rescale, one of zero counts and
    one without any count, and a column that it can. *)
Definition zero_sum : DataFrame cell :=
  mkDataFrame ["Tcr_a"; "Tcr_b"] [("S_TCR", [Some 0%Q; None])].

Definition all_missing : DataFrame cell :=
  mkDataFrame ["Tcr_a"; "Tcr_b"] [("S_TCR", [None; None])].

Definition two_guides : DataFrame cell :=
  mkDataFrame ["Tcr_a"; "Tcr_b"; "Tcr_c"]
    [("S_TCR", [Some 500%Q; None; Some 1500%Q])].

(** A sample column with two positive and two negative controls. *)
Definition two_controls : series :=
  [ ("Essential_a", 1%R); ("Essential_b", 3%R);
    ("CTRL_a", 5%R); ("CTRL_b", 9%R); ("Tcr_x", 4%R) ].

Section Samples64.

Import PrimFloat.
Local Open Scope float_scope.

(** The same column in binary64, and a screen with it as its only sample,
    a guide without a count added. *)
Definition two_controls64 : Binary64.series :=
  [ ("Essential_a", 1); ("Essential_b", 3);
    ("CTRL_a", 5); ("CTRL_b", 9); ("Tcr_x", 4) ].

Definition control_screen : DataFrame float :=
  mkDataFrame ["Essential_a"; "Essential_b"; "CTRL_a"; "CTRL_b"; "Tcr_x"; "Tcr_y"]
    [("S_TCR", [1; 3; 5; 9; 4; nan])].

(** Control sets with the same mean. *)
Definition equal_means64 : Binary64.series :=
  [ ("Essential_a", 1); ("Essential_b", 3);
    ("CTRL_a", 0); ("CTRL_b", 4) ].

(** A screen of three samples. *)
Definition three_samples64 : DataFrame float :=
  mkDataFrame ["Essential_a"; "CTRL_a"]
    [ ("S1", [1; 2]); ("S2", [1; 2]);
      ("S3", [1; 2]) ].

(** The distance of two neighbouring floats between 1/2 and 1, twice. *)
Definition two_ulp : float := 0x1p-52.

(** The separation of two control sets as the specification words it, with
    the mean and the population standard deviation written out. *)
Definition separation (sum : list float -> float) (pos neg : list float)
  : float :=
  let mu := fun l => sum l / Binary64.of_nat (length l) in
  let sigma := fun l =>
    sqrt (sum (map (fun x => (mu l - x) * (mu l - x)) l)
          / Binary64.of_nat (length l)) in
  1 - 3 * (sigma pos + sigma neg) / abs (mu pos - mu neg).

End Samples64.

(** Two guides with the same counts, in a plasmid pool and in a sample. *)
Definition tie_s1 : frame :=
  mkDataFrame ["CTRL_A"; "CTRL_B"] [("plasmid_pool_TCR", [Some 1%R; Some 1%R])].

Definition tie_s2 : frame :=
  mkDataFrame ["CTRL_A"; "CTRL_B"] [("S_TCR", [Some 3%R; Some 3%R])].

(** The fold-change of both: [log2(1 + 3) - log2(1 + 1)]. *)
Definition tie_fc : R := (ln (1 + 3) / ln 2 - ln (1 + 1) / ln 2)%R.

(** A guide that belongs to none of the four categories. *)
Definition stray_s1 : frame :=
  mkDataFrame ["Unknown_1"] [("plasmid_pool_TCR", [Some 1%R])].

Definition stray_s2 : frame :=
  mkDataFrame ["Unknown_1"] [("S_TCR", [Some 3%R])].

(** The guide of no category counted in the sample only. *)
Definition stray_in_sample : frame :=
  mkDataFrame ["CTRL_A"; "CTRL_B"; "Unknown_1"]
    [("S_TCR", [Some 3%R; Some 3%R; Some 5%R])].

(** ** Vocabulary of further properties *)

(** The filter-out list a call works with. *)
Definition effective_filter_out (filter_out : option (list string))
  : list string :=
  match filter_out with
  | None => default_filter_out
  | Some l => l
  end.

(** A control guide: its id matches the pattern "Essential|CTRL". *)
Definition is_control (r : string) : bool :=
  contains "Essential" r || contains "CTRL" r.

(** The cells the loop of [filter_gRNAs] masks in the working frame (a guide
    of the other sub-library) and in the reference frame (a guide of the
    sub-library of the column). *)
Definition cross_library (r c : string) : bool :=
  (tcr_column c && contains "Wnt" r) || (wnt_only_column c && contains "Tcr" r).

Definition own_library (r c : string) : bool :=
  (tcr_column c && contains "Tcr" r) || (wnt_only_column c && contains "Wnt" r).

(** Two floats that are the same number. *)
Definition feq (x y : float64) : Prop :=
  match x, y with
  | NaN, NaN | NInf, NInf | PInf, PInf => True
  | Fin a, Fin b => (a == b)%Q
  | _, _ => False
  end.

(** A count multiplied by [k]; a missing count stays missing. *)
Definition scale_cell (k : Q) (v : cell) : cell :=
  match v with
  | Some x => Some (k * x)%Q
  | None => None
  end.

(** The fold-changes of the rank table scenario. *)
Definition scenario_fc : list (option R) :=
  [Some 2%R; Some (-1)%R; Some (1 / 2)%R].

(** No guide of the index has [pat] in its id. *)
Definition free_of (pat : string) (idx : list string) : Prop :=
  forall r, In r idx -> contains pat r = false.

(** The quantity of the state was measured on the frame of the state. *)
Definition fresh {T : Type} (measure : frame -> string -> string -> result T)
  (screen : string) (st : frame * option T) : Prop :=
  exists reference m,
    measure (fst st) screen reference = Returned m /\ snd st = Some m.

(** A screen of seven samples, one more than the plots have axes. *)
Definition seven_samples : frame :=
  mkDataFrame ["CTRL_A"]
    [ ("S1_TCR", [Some 1%R]); ("S2_TCR", [Some 1%R]); ("S3_TCR", [Some 1%R]);
      ("S4_TCR", [Some 1%R]); ("S5_TCR", [Some 1%R]); ("S6_TCR", [Some 1%R]);
      ("S7_TCR", [Some 1%R]) ].

(** A sample whose name tells no sub-library, and a reference frame
    without the plasmid pool of the TCR library. *)
Definition unnamed_sample : frame :=
  mkDataFrame ["CTRL_A"; "CTRL_B"] [("S_other", [Some 3%R; Some 3%R])].

Definition no_pool : frame :=
  mkDataFrame ["CTRL_A"; "CTRL_B"] [("gDNA_Jurkat", [Some 1%R; Some 1%R])].

(** Guides of both sub-libraries in a TCR sample. *)
Definition mixed_s1 : frame :=
  mkDataFrame ["Tcr_1"; "Wnt_1"] [("plasmid_pool_TCR", [Some 1%R; Some 1%R])].

Definition mixed_s2 : frame :=
  mkDataFrame ["Tcr_1"; "Wnt_1"; "Tcr_2"] [("S_TCR", [Some 3%R; Some 3%R; Some 3%R])].

Unset Implicit Arguments.

(** ** Results: general facts *)

Lemma mapM_returns (A B : Type) (f : A -> result B) (l : list A) (bs : list B) :
  mapM f l = Returned bs <-> Forall2 (fun a b => f a = Returned b) l bs.
Proof.
  revert bs. induction l as [|a l IH]; intros bs; simpl.
  - split; intros H; [inversion H; constructor | now inversion H].
  - destruct (f a) as [b|e] eqn:E; simpl.
    + destruct (mapM f l) as [bs'|e'] eqn:E'; simpl.
      * split; intros H.
        -- inversion H; subst. constructor; trivial. now apply IH.
        -- inversion H; subst. apply IH in H4. inversion H4; subst.
           congruence.
      * split; intros H; [discriminate|]. inversion H; subst.
        apply IH in H4. discriminate.
    + split; intros H; [discriminate|]. inversion H; subst. congruence.
Qed.

(** ** Frames: general facts *)

Section FrameFacts.

Variable A : Type.

Lemma combine_map_combine (B : Type) (f : string * A -> B) :
  forall (idx : list string) (c : list A),
    combine idx (map f (combine idx c))
    = map (fun rv => (fst rv, f rv)) (combine idx c).
Proof.
  induction idx as [|r idx IH]; intros [|v c]; simpl; trivial.
  now rewrite IH.
Qed.

Lemma combine_map_r (B : Type) (f : A -> B) :
  forall (idx : list string) (c : list A),
    combine idx (map f c) = map (fun rv => (fst rv, f (snd rv))) (combine idx c).
Proof.
  induction idx as [|r idx IH]; intros [|v c]; simpl; trivial.
  now rewrite IH.
Qed.

Lemma combine_select (keep : string -> bool) :
  forall (idx : list string) (c : list A),
    combine (filter keep idx) (select keep idx c)
    = filter (fun rv => keep (fst rv)) (combine idx c).
Proof.
  unfold select.
  induction idx as [|r idx IH]; intros [|v c]; simpl; trivial.
  - destruct (keep r); trivial. now destruct (filter keep idx).
  - destruct (keep r); simpl; now rewrite IH.
Qed.

Lemma in_entries (df : DataFrame A) r c v :
  In (r, c, v) (entries df) <->
  exists col, In (c, col) (cols df) /\ In (r, v) (combine (index df) col).
Proof.
  unfold entries. rewrite in_flat_map. split.
  - intros [[n col] [Hin Hrv]]. simpl in Hrv.
    apply in_map_iff in Hrv. destruct Hrv as [[r' v'] [Heq Hrv]].
    simpl in Heq. inversion Heq; subst. now exists col.
  - intros [col [Hin Hrv]]. exists (c, col). split; trivial.
    simpl. apply in_map_iff. now exists (r, v).
Qed.

Lemma entries_column (df : DataFrame A) r c v :
  In (r, c, v) (entries df) -> In c (columns df).
Proof.
  intros H. apply in_entries in H. destruct H as [col [Hin _]].
  unfold columns. apply in_map_iff. now exists (c, col).
Qed.

Lemma entries_row (df : DataFrame A) r c v :
  In (r, c, v) (entries df) -> In r (index df).
Proof.
  intros H. apply in_entries in H. destruct H as [col [_ Hin]].
  now apply in_combine_l in Hin.
Qed.

Lemma entries_select_rows (keep : string -> bool) (df : DataFrame A) r c v :
  In (r, c, v) (entries (select_rows keep df)) <->
  In (r, c, v) (entries df) /\ keep r = true.
Proof.
  rewrite !in_entries. unfold select_rows; simpl. split.
  - intros [col [Hin Hrv]]. apply in_map_iff in Hin.
    destruct Hin as [[n col0] [Heq Hin]]. simpl in Heq. inversion Heq; subst.
    rewrite combine_select in Hrv. apply filter_In in Hrv.
    destruct Hrv as [Hrv Hk]. split; trivial. now exists col0.
  - intros [[col [Hin Hrv]] Hk].
    exists (select keep (index df) col). split.
    + apply in_map_iff. now exists (c, col).
    + rewrite combine_select. apply filter_In. now split.
Qed.

Lemma entries_drop_column (label : string) (df : DataFrame A) r c v :
  In (r, c, v) (entries (drop_column label df)) <->
  In (r, c, v) (entries df) /\ c <> label.
Proof.
  rewrite !in_entries. unfold drop_column; simpl. split.
  - intros [col [Hin Hrv]]. apply filter_In in Hin. destruct Hin as [Hin Hne].
    simpl in Hne. apply negb_true_iff, String.eqb_neq in Hne.
    split; trivial. now exists col.
  - intros [[col [Hin Hrv]] Hne]. exists col. split; trivial.
    apply filter_In. split; trivial. simpl.
    now apply negb_true_iff, String.eqb_neq.
Qed.

Lemma columns_select_rows (keep : string -> bool) (df : DataFrame A) :
  columns (select_rows keep df) = columns df.
Proof.
  unfold columns, select_rows; simpl. rewrite map_map. now apply map_ext.
Qed.

Lemma columns_drop_column (label : string) (df : DataFrame A) :
  columns (drop_column label df)
  = filter (fun n => negb (String.eqb n label)) (columns df).
Proof.
  unfold columns, drop_column; simpl.
  induction (cols df) as [|nc l IH]; simpl; trivial.
  destruct (negb (String.eqb (fst nc) label)); simpl; now rewrite IH.
Qed.

End FrameFacts.

Lemma isin_true (r : string) (labels : list string) :
  isin r labels = true <-> In r labels.
Proof.
  unfold isin. rewrite existsb_exists. split.
  - intros [x [Hin Heq]]. apply String.eqb_eq in Heq. now subst.
  - intros Hin. exists r. split; trivial. apply String.eqb_refl.
Qed.

Lemma isin_false (r : string) (labels : list string) :
  isin r labels = false <-> ~ In r labels.
Proof.
  rewrite <- isin_true. now destruct (isin r labels).
Qed.

Lemma filter_absent (label : string) (names : list string) :
  isin label names = false ->
  filter (fun n => negb (String.eqb n label)) names = names.
Proof.
  rewrite isin_false. induction names as [|n names IH]; simpl; trivial.
  intros Hnot. destruct (String.eqb_spec n label) as [->|Hne]; simpl.
  - exfalso. apply Hnot. now left.
  - rewrite IH; trivial. intros Hin. apply Hnot. now right.
Qed.

(** ** Filter: the masks *)

Section FilterFacts.

Local Open Scope Q_scope.

Lemma entries_set_loc_nan rows col (df : DataFrame cell) r c v :
  In (r, c, Some v) (entries (set_loc_nan rows col df)) <->
  In (r, c, Some v) (entries df) /\ (c = col -> isin r rows = false).
Proof.
  rewrite !in_entries. unfold set_loc_nan; simpl. split.
  - intros [col' [Hin Hrv]]. apply in_map_iff in Hin.
    destruct Hin as [[n col0] [Heq Hin]]. simpl in Heq.
    destruct (String.eqb_spec n col) as [->|Hne].
    + inversion Heq; subst. unfold mask_rows in Hrv.
      rewrite combine_map_combine in Hrv. apply in_map_iff in Hrv.
      destruct Hrv as [[r' v'] [Heq' Hrv]]. simpl in Heq'.
      destruct (isin r' rows) eqn:Hr; inversion Heq'; subst.
      split; [now exists col0 | trivial].
    + inversion Heq; subst. split; [now exists col' | tauto].
  - intros [[col0 [Hin Hrv]] Hmask].
    destruct (String.eqb_spec c col) as [->|Hne].
    + exists (mask_rows (fun r0 => isin r0 rows) (index df) col0). split.
      * apply in_map_iff. exists (col, col0). simpl.
        now rewrite String.eqb_refl.
      * unfold mask_rows. rewrite combine_map_combine. apply in_map_iff.
        exists (r, Some v). simpl. now rewrite Hmask.
    + exists col0. split; trivial. apply in_map_iff. exists (c, col0). simpl.
      destruct (String.eqb_spec c col); [contradiction | now split].
Qed.

Lemma entries_set_rows_nan rows (df : DataFrame cell) r c v :
  In (r, c, Some v) (entries (set_rows_nan rows df)) <->
  In (r, c, Some v) (entries df) /\ isin r rows = false.
Proof.
  rewrite !in_entries. unfold set_rows_nan; simpl. split.
  - intros [col' [Hin Hrv]]. apply in_map_iff in Hin.
    destruct Hin as [[n col0] [Heq Hin]]. simpl in Heq.
    inversion Heq; subst. unfold mask_rows in Hrv.
    rewrite combine_map_combine in Hrv. apply in_map_iff in Hrv.
    destruct Hrv as [[r' v'] [Heq' Hrv]]. simpl in Heq'.
    destruct (isin r' rows) eqn:Hr; inversion Heq'; subst.
    split; [now exists col0 | trivial].
  - intros [[col0 [Hin Hrv]] Hmask].
    exists (mask_rows (fun r0 => isin r0 rows) (index df) col0). split.
    + apply in_map_iff. now exists (c, col0).
    + unfold mask_rows. rewrite combine_map_combine. apply in_map_iff.
      exists (r, Some v). simpl. now rewrite Hmask.
Qed.

Lemma entries_where_gt bound (df : DataFrame cell) r c v :
  In (r, c, Some v) (entries (where_gt bound df)) <->
  In (r, c, Some v) (entries df) /\ Qle_bool v bound = false.
Proof.
  rewrite !in_entries. unfold where_gt; simpl. split.
  - intros [col' [Hin Hrv]]. apply in_map_iff in Hin.
    destruct Hin as [[n col0] [Heq Hin]]. simpl in Heq.
    inversion Heq; subst. rewrite combine_map_r in Hrv.
    apply in_map_iff in Hrv. destruct Hrv as [[r' [x|]] [Heq' Hrv]];
      simpl in Heq'; [|discriminate].
    destruct (Qle_bool x bound) eqn:Hx; inversion Heq'; subst.
    split; [now exists col0 | trivial].
  - intros [[col0 [Hin Hrv]] Hgt].
    eexists. split.
    + apply in_map_iff. exists (c, col0). simpl. split; [reflexivity | trivial].
    + rewrite combine_map_r. apply in_map_iff.
      exists (r, Some v). simpl. now rewrite Hgt.
Qed.

Lemma columns_set_loc_nan rows col (df : DataFrame cell) :
  columns (set_loc_nan rows col df) = columns df.
Proof.
  unfold columns, set_loc_nan; simpl. rewrite map_map. apply map_ext.
  intros nc. now destruct (String.eqb (fst nc) col).
Qed.

Lemma columns_set_rows_nan rows (df : DataFrame cell) :
  columns (set_rows_nan rows df) = columns df.
Proof.
  unfold columns, set_rows_nan; simpl. rewrite map_map. now apply map_ext.
Qed.

Lemma columns_where_gt bound (df : DataFrame cell) :
  columns (where_gt bound df) = columns df.
Proof.
  unfold columns, where_gt; simpl. rewrite map_map. now apply map_ext.
Qed.

Lemma isin_labels_containing (A : Type) pat (df : DataFrame A) r :
  In r (index df) -> contains pat r = true ->
  isin r (labels_containing pat df) = true.
Proof.
  intros Hin Hpat. apply isin_true. unfold labels_containing.
  apply filter_In. now split.
Qed.

(** The loop of [filter_gRNAs] keeps the shape of both frames. *)
Lemma step_shape st col :
  index (fst (opposite_library_step st col)) = index (fst st) /\
  index (snd (opposite_library_step st col)) = index (snd st) /\
  columns (fst (opposite_library_step st col)) = columns (fst st) /\
  columns (snd (opposite_library_step st col)) = columns (snd st).
Proof.
  destruct st as [df filtered]. unfold opposite_library_step.
  destruct (contains "TCR" col || contains "Jurkat" col);
    [|destruct (contains "WNT" col || contains "HEK" col)];
    simpl; rewrite ?columns_set_loc_nan; auto.
Qed.

Lemma loop_shape cs : forall st,
  index (fst (fold_left opposite_library_step cs st)) = index (fst st) /\
  index (snd (fold_left opposite_library_step cs st)) = index (snd st) /\
  columns (fst (fold_left opposite_library_step cs st)) = columns (fst st) /\
  columns (snd (fold_left opposite_library_step cs st)) = columns (snd st).
Proof.
  induction cs as [|col cs IH]; intros st; simpl; auto.
  destruct (IH (opposite_library_step st col)) as (H1 & H2 & H3 & H4).
  destruct (step_shape st col) as (S1 & S2 & S3 & S4).
  rewrite H1, H2, H3, H4. auto.
Qed.

(** The loop only removes values. *)
Lemma step_sub st col r c v :
  (In (r, c, Some v) (entries (fst (opposite_library_step st col))) ->
   In (r, c, Some v) (entries (fst st))) /\
  (In (r, c, Some v) (entries (snd (opposite_library_step st col))) ->
   In (r, c, Some v) (entries (snd st))).
Proof.
  destruct st as [df filtered]. unfold opposite_library_step.
  destruct (contains "TCR" col || contains "Jurkat" col);
    [|destruct (contains "WNT" col || contains "HEK" col)];
    simpl; rewrite ?entries_set_loc_nan; tauto.
Qed.

Lemma loop_sub cs r c v : forall st,
  (In (r, c, Some v) (entries (fst (fold_left opposite_library_step cs st))) ->
   In (r, c, Some v) (entries (fst st))) /\
  (In (r, c, Some v) (entries (snd (fold_left opposite_library_step cs st))) ->
   In (r, c, Some v) (entries (snd st))).
Proof.
  induction cs as [|col cs IH]; intros st; simpl; [tauto|].
  destruct (IH (opposite_library_step st col)) as [H1 H2].
  destruct (step_sub st col r c v) as [S1 S2]. tauto.
Qed.

(** What one iteration masks in its own column. *)
Lemma step_masks st col r v :
  (In (r, col, Some v) (entries (fst (opposite_library_step st col))) ->
   (tcr_column col = true -> contains "Wnt" r = false) /\
   (wnt_only_column col = true -> contains "Tcr" r = false)) /\
  (In (r, col, Some v) (entries (snd (opposite_library_step st col))) ->
   (tcr_column col = true -> contains "Tcr" r = false) /\
   (wnt_only_column col = true -> contains "Wnt" r = false)).
Proof.
  destruct st as [df filtered].
  unfold opposite_library_step, wnt_only_column, wnt_column, tcr_column.
  destruct (contains "TCR" col || contains "Jurkat" col);
    [|destruct (contains "WNT" col || contains "HEK" col)]; simpl.
  - split; intros H; apply entries_set_loc_nan in H; destruct H as [H Hm];
      specialize (Hm eq_refl); apply entries_row in H;
      (split; [intros _ | discriminate]).
    + destruct (contains "Wnt" r) eqn:E; trivial.
      now rewrite (isin_labels_containing _ "Wnt" df r H E) in Hm.
    + destruct (contains "Tcr" r) eqn:E; trivial.
      now rewrite (isin_labels_containing _ "Tcr" filtered r H E) in Hm.
  - split; intros H; apply entries_set_loc_nan in H; destruct H as [H Hm];
      specialize (Hm eq_refl); apply entries_row in H;
      (split; [discriminate | intros _]).
    + destruct (contains "Tcr" r) eqn:E; trivial.
      now rewrite (isin_labels_containing _ "Tcr" df r H E) in Hm.
    + destruct (contains "Wnt" r) eqn:E; trivial.
      now rewrite (isin_labels_containing _ "Wnt" filtered r H E) in Hm.
  - split; intros _; split; discriminate.
Qed.

(** After the loop, every column it went through is masked. *)
Lemma loop_masks cs c r v : forall st,
  In c cs ->
  (In (r, c, Some v) (entries (fst (fold_left opposite_library_step cs st))) ->
   (tcr_column c = true -> contains "Wnt" r = false) /\
   (wnt_only_column c = true -> contains "Tcr" r = false)) /\
  (In (r, c, Some v) (entries (snd (fold_left opposite_library_step cs st))) ->
   (tcr_column c = true -> contains "Tcr" r = false) /\
   (wnt_only_column c = true -> contains "Wnt" r = false)).
Proof.
  induction cs as [|col cs IH]; intros st Hin; simpl; [contradiction|].
  destruct Hin as [->|Hin].
  - destruct (loop_sub cs r c v (opposite_library_step st c)) as [L1 L2].
    destruct (step_masks st c r v) as [M1 M2]. tauto.
  - now apply IH.
Qed.

End FilterFacts.

(** ** Filter: the two frames and the threshold *)

Section FilterTheorems.

Local Open Scope Q_scope.

Lemma frames_columns df fo :
  columns (working df fo) = but_plasmid_pool_ESS (columns df) /\
  columns (reference df fo) = but_plasmid_pool_ESS (columns df).
Proof.
  unfold working, reference, filter_frames, but_plasmid_pool_ESS.
  match goal with
  | |- context [fold_left opposite_library_step ?cs ?st0] =>
      set (st := fold_left opposite_library_step cs st0);
      destruct (loop_shape cs st0) as (_ & _ & C1 & C2); fold st in C1, C2
  end.
  simpl in C1, C2.
  rewrite columns_select_rows in C1. rewrite columns_set_rows_nan in C2.
  destruct (isin "plasmid_pool_ESS" (columns (fst st))) eqn:E; simpl.
  - rewrite !columns_drop_column, C1, C2. now split.
  - rewrite C1 in E. rewrite (filter_absent _ _ E). now split.
Qed.

Lemma frames_masked df fo r c v :
  (In (r, c, Some v) (entries (working df fo)) ->
   (tcr_column c = true -> contains "Wnt" r = false) /\
   (wnt_only_column c = true -> contains "Tcr" r = false)) /\
  (In (r, c, Some v) (entries (reference df fo)) ->
   (tcr_column c = true -> contains "Tcr" r = false) /\
   (wnt_only_column c = true -> contains "Wnt" r = false)).
Proof.
  unfold working, reference, filter_frames.
  match goal with
  | |- context [fold_left opposite_library_step ?cs ?st0] =>
      set (st := fold_left opposite_library_step cs st0);
      destruct (loop_shape cs st0) as (_ & _ & C1 & C2);
      pose proof (fun H => loop_masks cs c r v st0 H) as M;
      fold st in C1, C2, M
  end.
  simpl in C1, C2.
  rewrite columns_select_rows in C1, M. rewrite columns_set_rows_nan in C2.
  assert (W : In (r, c, Some v) (entries (fst st)) -> In c (columns df)).
  { intros H. apply entries_column in H. now rewrite C1 in H. }
  assert (F : In (r, c, Some v) (entries (snd st)) -> In c (columns df)).
  { intros H. apply entries_column in H. now rewrite C2 in H. }
  destruct (isin "plasmid_pool_ESS" (columns (fst st))); simpl;
    rewrite ?entries_drop_column; split; intros H; apply M; tauto.
Qed.

(** C1, as the code has it.  Each sample column is classed by the first
    test that its name passes ("TCR"/"Jurkat", else "WNT"/"HEK").  In the
    working frame the rows of the other sub-library are missing: no "Wnt"
    guide has a value in a "TCR"/"Jurkat" column, no "Tcr" guide has one in
    a "WNT"/"HEK" column that is not also a "TCR"/"Jurkat" column; the same
    holds of the frame returned.  In the reference frame it is the rows of
    the column's own sub-library that are missing ("Tcr" guides in
    "TCR"/"Jurkat" columns, "Wnt" guides in the other ones). *)
Theorem filter_gRNAs_opposite_library df fo :
  no_value (working df fo) "Wnt" tcr_column /\
  no_value (working df fo) "Tcr" wnt_only_column /\
  no_value (reference df fo) "Tcr" tcr_column /\
  no_value (reference df fo) "Wnt" wnt_only_column /\
  (forall out, filter_gRNAs df fo = Returned out ->
     no_value out "Wnt" tcr_column /\ no_value out "Tcr" wnt_only_column).
Proof.
  assert (W : no_value (working df fo) "Wnt" tcr_column /\
              no_value (working df fo) "Tcr" wnt_only_column).
  { split; intros r c v H Hr Hc;
      destruct (frames_masked df fo r c v) as [[M1 M2] _]; trivial;
      [specialize (M1 Hc) | specialize (M2 Hc)]; congruence. }
  destruct W as [W1 W2].
  repeat split; trivial.
  - intros r c v H Hr Hc.
    destruct (frames_masked df fo r c v) as [_ [M1 _]]; trivial.
    specialize (M1 Hc); congruence.
  - intros r c v H Hr Hc.
    destruct (frames_masked df fo r c v) as [_ [_ M2]]; trivial.
    specialize (M2 Hc); congruence.
  - unfold filter_gRNAs in H. fold (working df fo) in H.
    destruct (noise_threshold _); simpl in H; [|discriminate].
    inversion H; subst. intros r c v Hin.
    apply entries_where_gt in Hin. now apply (W1 r c v).
  - unfold filter_gRNAs in H. fold (working df fo) in H.
    destruct (noise_threshold _); simpl in H; [|discriminate].
    inversion H; subst. intros r c v Hin.
    apply entries_where_gt in Hin. now apply (W2 r c v).
Qed.

(** The claim C1 as the specification words it fails: the reference frame
    keeps the "Wnt" guide of a "TCR" column, and a column named after both
    sub-libraries keeps its "Tcr" guides in the frame returned. *)
Lemma filter_gRNAs_not_exclusive :
  ~ exclusive (reference wnt_in_tcr None) /\
  exists out, filter_gRNAs both_names None = Returned out /\ ~ exclusive out.
Proof.
  split.
  - intros [H _]. apply (H "Wnt_1"%string "TCR_1"%string 7); vm_compute; auto.
  - eexists. split; [vm_compute; reflexivity|].
    intros [_ H]. apply (H "Tcr_1"%string "TCR_WNT"%string 9); vm_compute; auto.
Qed.

Lemma filter_gRNAs_opposite_library_witness :
  filter_gRNAs both_names None
  = Returned (mkDataFrame ["Tcr_1"; "Wnt_1"]%string
                          [("TCR_WNT"%string, [Some 9; None])]) /\
  no_value (mkDataFrame ["Tcr_1"; "Wnt_1"]%string
                        [("TCR_WNT"%string, [Some 9; None])])
           "Wnt" tcr_column.
Proof.
  split; [vm_compute; reflexivity|].
  apply (filter_gRNAs_opposite_library both_names None).
  vm_compute; reflexivity.
Defined.

(** C9.  [filter_gRNAs] takes the column "plasmid_pool_ESS" out of the
    working and of the reference frame and keeps every other column, in
    order; the frame returned has these columns, fewer than the input when
    the column was there. *)
Theorem filter_gRNAs_drops_plasmid_pool_ESS df fo :
  columns (working df fo) = but_plasmid_pool_ESS (columns df) /\
  columns (reference df fo) = but_plasmid_pool_ESS (columns df) /\
  (forall out, filter_gRNAs df fo = Returned out ->
     columns out = but_plasmid_pool_ESS (columns df) /\
     ~ In "plasmid_pool_ESS"%string (columns out) /\
     (forall c, In c (columns df) -> c <> "plasmid_pool_ESS"%string ->
                In c (columns out)) /\
     (In "plasmid_pool_ESS"%string (columns df) ->
      (length (columns out) < length (columns df))%nat)).
Proof.
  destruct (frames_columns df fo) as [CW CR].
  split; [exact CW|]. split; [exact CR|]. intros out H.
  assert (Hc : columns out = but_plasmid_pool_ESS (columns df)).
  { unfold filter_gRNAs in H. fold (working df fo) in H.
    destruct (noise_threshold _); simpl in H; [|discriminate].
    inversion H; subst. now rewrite columns_where_gt. }
  split; [exact Hc|]. rewrite Hc. unfold but_plasmid_pool_ESS.
  split; [|split].
  - intros Hin. apply filter_In in Hin. destruct Hin as [_ Hne].
    now rewrite String.eqb_refl in Hne.
  - intros c Hin Hne. apply filter_In. split; trivial.
    now apply negb_true_iff, String.eqb_neq.
  - clear. intros Hin. induction (columns df) as [|n l IH]; [contradiction|].
    simpl. destruct (String.eqb_spec n "plasmid_pool_ESS"); simpl.
    + pose proof (filter_length_le
        (fun n0 => negb (String.eqb n0 "plasmid_pool_ESS")) l). lia.
    + destruct Hin as [->|Hin]; [contradiction|]. specialize (IH Hin). lia.
Qed.

Lemma filter_gRNAs_drops_plasmid_pool_ESS_witness :
  filter_gRNAs noise_example (Some ["CTRL001"%string])
  = Returned (mkDataFrame ["Essential_X_1"; "Tcr_a"; "Tcr_b"]%string
                          [("S_TCR"%string, [Some 500; None; Some 51])]) /\
  columns (mkDataFrame ["Essential_X_1"; "Tcr_a"; "Tcr_b"]%string
                       [("S_TCR"%string, [Some 500; None; Some 51])])
  = but_plasmid_pool_ESS (columns noise_example).
Proof.
  split; [vm_compute; reflexivity|].
  apply (filter_gRNAs_drops_plasmid_pool_ESS noise_example
           (Some ["CTRL001"%string])).
  vm_compute; reflexivity.
Defined.

End FilterTheorems.

Section NoiseThreshold.

Local Open Scope Q_scope.

Lemma percentile_returns (a : list Q) (q : Q) :
  a <> [] -> exists p, percentile a q = Returned p.
Proof.
  destruct a as [|x a]; [congruence|]. intros _. eexists. reflexivity.
Qed.

Lemma above_le bound x : x <= bound -> above bound (Some x) = None.
Proof.
  intros H. apply Qle_bool_iff in H. simpl. now rewrite H.
Qed.

Lemma above_gt bound x : bound < x -> above bound (Some x) = Some x.
Proof.
  intros H. simpl. destruct (Qle_bool x bound) eqn:E; trivial.
  apply Qle_bool_iff in E. exfalso. apply (Qlt_not_le _ _ H E).
Qed.

Lemma where_gt_cols bound (df : DataFrame cell) :
  cols (where_gt bound df)
  = map (fun nc => (fst nc, map (above bound) (snd nc))) (cols df).
Proof. reflexivity. Qed.

(** The percentile on the arrays of the examples: [np.percentile] gives
    4.8, 48.5 and 50. *)
Lemma percentile_examples :
  percentile [1; 2; 3; 4; 5] 95 = Returned (24 # 5) /\
  percentile [50; 7; 40; 8] 95 = Returned (97 # 2) /\
  percentile [50] 95 = Returned 50.
Proof. repeat split; vm_compute; reflexivity. Qed.

(** The frame returned has no value that the input has not. *)
Lemma filter_gRNAs_only_removes df fo out r c x :
  filter_gRNAs df fo = Returned out ->
  In (r, c, Some x) (entries out) -> In (r, c, Some x) (entries df).
Proof.
  unfold filter_gRNAs. intros H Hin.
  destruct (noise_threshold _); simpl in H; [|discriminate].
  inversion H; subst; clear H. apply entries_where_gt in Hin.
  destruct Hin as [Hin _]. unfold filter_frames in Hin.
  match type of Hin with
  | context [fold_left opposite_library_step ?cs ?st0] =>
      pose proof (proj1 (loop_sub cs r c x st0)) as L;
      set (st := fold_left opposite_library_step cs st0) in *
  end.
  simpl in L. rewrite entries_select_rows in L.
  destruct (isin "plasmid_pool_ESS" (columns (fst st))); simpl in Hin;
    rewrite ?entries_drop_column in Hin; tauto.
Qed.



(** C6.  When the reference frame has no value at all, the percentile is
    taken of an empty array and [filter_gRNAs] raises: no frame is
    returned. *)
Theorem filter_gRNAs_empty_noise df fo :
  noise df fo = [] ->
  filter_gRNAs df fo = Raised IndexError /\
  forall out, filter_gRNAs df fo <> Returned out.
Proof.
  intros H.
  assert (E : filter_gRNAs df fo = Raised IndexError).
  { unfold filter_gRNAs, noise_threshold.
    fold (reference df fo). fold (noise df fo). now rewrite H. }
  split; trivial. intros out. rewrite E. discriminate.
Qed.

Lemma filter_gRNAs_empty_noise_witness :
  noise controls_only None = [] /\
  filter_gRNAs controls_only None = Raised IndexError.
Proof.
  split; [vm_compute; reflexivity|].
  apply (filter_gRNAs_empty_noise controls_only None).
  vm_compute; reflexivity.
Defined.

(** [filter_gRNAs] raises in no other case. *)
Lemma filter_gRNAs_raises_iff df fo e :
  filter_gRNAs df fo = Raised e <-> noise df fo = [] /\ e = IndexError.
Proof.
  unfold filter_gRNAs, noise_threshold.
  fold (reference df fo). fold (noise df fo).
  destruct (noise df fo) as [|x a]; simpl; split.
  - intros H. inversion H. now split.
  - now intros [_ ->].
  - discriminate.
  - intros [H _]. discriminate.
Qed.

End NoiseThreshold.

(** ** Normalizer *)

Section NormalizerTheorems.

Local Open Scope Q_scope.

Lemma normalize_column_nonzero (c : list cell) :
  ~ sum_skipna c == 0 ->
  normalize_column c = map (rescaled (sum_skipna c)) c.
Proof.
  intros Hs. unfold normalize_column. apply map_ext. intros [x|]; simpl; trivial.
  destruct (Qeq_bool (sum_skipna c) 0) eqn:E; trivial.
  apply Qeq_bool_eq in E. contradiction.
Qed.

Lemma normalize_column_zero (c : list cell) :
  sum_skipna c == 0 ->
  normalize_column c = map divided_by_zero c.
Proof.
  intros Hs. unfold normalize_column. apply map_ext. intros [x|]; simpl; trivial.
  apply Qeq_eq_bool in Hs. rewrite Hs.
  destruct (Qeq_bool x 0); trivial. now destruct (Qltb 0 x).
Qed.

Lemma fsum_rescaled (s : Q) : ~ s == 0 -> forall c : list cell,
  exists t, fsum_skipna (map (rescaled s) c) = Fin t /\
            t == sum_skipna c / s * 10000.
Proof.
  intros Hs. induction c as [|[x|] c IH]; simpl.
  - exists 0. split; trivial. unfold sum_skipna; simpl. now field.
  - destruct IH as [t [Ht Heq]]. rewrite Ht. simpl.
    exists (x / s * 10000 + t). split; trivial.
    unfold sum_skipna in *; simpl. rewrite Heq. now field.
  - exact IH.
Qed.

Lemma divided_by_zero_not_finite (v : cell) :
  is_finite (divided_by_zero v) = false.
Proof.
  destruct v as [x|]; simpl; trivial.
  destruct (Qeq_bool x 0); trivial. now destruct (Qltb 0 x).
Qed.

(** C3.  Normalisation returns a frame with the same index and columns; a
    column whose values sum to [S > 0] has every value [x] replaced by
    [x / S * 10000] and every missing cell still missing, and the values of
    the normalised column sum to 10000. *)
Theorem normalize_by_total_sum df j name c :
  nth_error (cols df) j = Some (name, c) ->
  0 < sum_skipna c ->
  exists ndf c',
    normalize_by_total df = Returned ndf /\
    index ndf = index df /\ columns ndf = columns df /\
    nth_error (cols ndf) j = Some (name, c') /\
    length c' = length c /\
    (forall i,
       (nth_error c i = Some None -> nth_error c' i = Some NaN) /\
       (forall x, nth_error c i = Some (Some x) ->
                  nth_error c' i = Some (Fin (x / sum_skipna c * 10000)))) /\
    exists t, fsum_skipna c' = Fin t /\ t == 10000.
Proof.
  intros Hj Hs.
  assert (Hn : ~ sum_skipna c == 0).
  { intros E. rewrite E in Hs. now apply Qlt_irrefl in Hs. }
  eexists. exists (normalize_column c).
  split; [reflexivity|]. split; [reflexivity|]. simpl. split.
  { unfold columns; simpl. rewrite map_map. now apply map_ext. }
  split. { rewrite nth_error_map, Hj. reflexivity. }
  rewrite (normalize_column_nonzero c Hn).
  split; [apply length_map|]. split.
  - intros i. split.
    + intros Hi. now rewrite nth_error_map, Hi.
    + intros x Hi. now rewrite nth_error_map, Hi.
  - destruct (fsum_rescaled (sum_skipna c) Hn c) as [t [Ht Heq]].
    exists t. split; trivial. rewrite Heq. now field.
Qed.

Lemma normalize_by_total_sum_witness :
  nth_error (cols two_guides) 0 = Some ("S_TCR"%string, [Some 500; None; Some 1500]) /\
  0 < sum_skipna [Some 500; None; Some 1500] /\
  exists ndf c',
    normalize_by_total two_guides = Returned ndf /\
    nth_error (cols ndf) 0 = Some ("S_TCR"%string, c') /\
    exists t, fsum_skipna c' = Fin t /\ t == 10000.
Proof.
  split; [reflexivity|]. split; [reflexivity|].
  destruct (normalize_by_total_sum two_guides 0%nat "S_TCR"%string
              [Some 500; None; Some 1500])
    as (ndf & c' & H1 & _ & _ & H2 & _ & _ & H3).
  - reflexivity.
  - reflexivity.
  - now exists ndf, c'.
Defined.

(** C5, as the code has it.  Normalisation has no check and never raises.
    A column whose values sum to zero (so also a column without values) is
    divided by zero without notice: the normalised column has no finite
    cell, NaN where the cell was missing or zero and an infinity
    elsewhere. *)
Theorem normalize_by_total_zero_sum df j name c :
  nth_error (cols df) j = Some (name, c) ->
  sum_skipna c == 0 ->
  exists ndf c',
    normalize_by_total df = Returned ndf /\
    nth_error (cols ndf) j = Some (name, c') /\
    length c' = length c /\
    Forall (fun v => is_finite v = false) c' /\
    forall i,
      (nth_error c i = Some None -> nth_error c' i = Some NaN) /\
      (forall x, nth_error c i = Some (Some x) ->
         (x == 0 -> nth_error c' i = Some NaN) /\
         (0 < x -> nth_error c' i = Some PInf) /\
         (x < 0 -> nth_error c' i = Some NInf)).
Proof.
  intros Hj Hs.
  eexists. exists (normalize_column c).
  split; [reflexivity|]. simpl.
  split. { rewrite nth_error_map, Hj. reflexivity. }
  rewrite (normalize_column_zero c Hs).
  split; [apply length_map|]. split.
  - apply Forall_forall. intros v Hin. apply in_map_iff in Hin.
    destruct Hin as [u [<- _]]. apply divided_by_zero_not_finite.
  - intros i. split.
    + intros Hi. now rewrite nth_error_map, Hi.
    + intros x Hi. rewrite nth_error_map, Hi. simpl.
      split; [|split]; intros Hx.
      * apply Qeq_eq_bool in Hx. now rewrite Hx.
      * destruct (Qeq_bool x 0) eqn:E.
        -- apply Qeq_bool_eq in E. rewrite E in Hx.
           now apply Qlt_irrefl in Hx.
        -- unfold Qltb. destruct (Qle_bool x 0) eqn:L; trivial.
           apply Qle_bool_iff in L. exfalso. apply (Qlt_not_le _ _ Hx L).
      * destruct (Qeq_bool x 0) eqn:E.
        -- apply Qeq_bool_eq in E. rewrite E in Hx.
           now apply Qlt_irrefl in Hx.
        -- unfold Qltb. destruct (Qle_bool x 0) eqn:L; trivial.
           exfalso. assert (Hle : x <= 0) by now apply Qlt_le_weak.
           apply Qle_bool_iff in Hle. congruence.
Qed.

Lemma normalize_by_total_zero_sum_witness :
  nth_error (cols zero_sum) 0 = Some ("S_TCR"%string, [Some 0; None]) /\
  sum_skipna [Some 0; None] == 0 /\
  exists ndf c',
    normalize_by_total zero_sum = Returned ndf /\
    nth_error (cols ndf) 0 = Some ("S_TCR"%string, c') /\
    Forall (fun v => is_finite v = false) c'.
Proof.
  split; [reflexivity|]. split; [reflexivity|].
  destruct (normalize_by_total_zero_sum zero_sum 0%nat "S_TCR"%string
              [Some 0; None])
    as (ndf & c' & H1 & H2 & _ & H3 & _).
  - reflexivity.
  - reflexivity.
  - now exists ndf, c'.
Defined.

(** The claim C5 as the specification words it fails: a column of zero
    counts and a column without counts are normalised to NaN, and nothing
    is raised. *)
Lemma normalize_by_total_not_flagged :
  normalize_by_total zero_sum
  = Returned (mkDataFrame ["Tcr_a"; "Tcr_b"]%string
                          [("S_TCR"%string, [NaN; NaN])]) /\
  normalize_by_total all_missing
  = Returned (mkDataFrame ["Tcr_a"; "Tcr_b"]%string
                          [("S_TCR"%string, [NaN; NaN])]) /\
  (forall e, normalize_by_total zero_sum <> Raised e) /\
  (forall e, normalize_by_total all_missing <> Raised e).
Proof.
  repeat split; try reflexivity; intros e H; discriminate H.
Qed.

End NormalizerTheorems.

(** ** Sensitivity scorer: sums, means and deviations *)

Section ScorerFacts.

Local Open Scope R_scope.

Lemma Rsum_map_scale (k : R) (f : R -> R) (l : list R) :
  Rsum (map (fun x => k * f x) l) = k * Rsum (map f l).
Proof.
  induction l as [|x l IH]; simpl; [ring|]. rewrite IH. ring.
Qed.

Lemma Rsum_map_affine (a b : R) (l : list R) :
  Rsum (map (fun x => a * x + b) l) = a * Rsum l + b * INR (length l).
Proof.
  induction l as [|x l IH]; [simpl; ring|].
  change (length (x :: l)) with (S (length l)). rewrite S_INR.
  simpl. rewrite IH. ring.
Qed.

Lemma Rsum_nonneg (f : R -> R) (l : list R) :
  (forall x, 0 <= f x) -> 0 <= Rsum (map f l).
Proof.
  intros Hf. unfold Rsum. induction l as [|x l IH]; simpl; [lra|].
  specialize (Hf x). lra.
Qed.

Lemma Rsum_zero_terms (f : R -> R) (l : list R) :
  (forall x, 0 <= f x) -> Rsum (map f l) = 0 ->
  forall x, In x l -> f x = 0.
Proof.
  intros Hf. induction l as [|y l IH]; simpl; [contradiction|].
  intros Hs x Hin. pose proof (Rsum_nonneg f l Hf) as Hl.
  unfold Rsum in *. simpl in Hs. destruct Hin as [->|Hin].
  - specialize (Hf x). lra.
  - apply IH; trivial. specialize (Hf y). lra.
Qed.

Lemma INR_length_pos (l : list R) : l <> [] -> 0 < INR (length l).
Proof.
  destruct l as [|x l]; [congruence|]. intros _.
  change (length (x :: l)) with (S (length l)). rewrite S_INR.
  pose proof (pos_INR (length l)). lra.
Qed.

Lemma mean_affine (a b : R) (l : list R) :
  l <> [] -> mean (map (fun x => a * x + b) l) = a * mean l + b.
Proof.
  intros Hl. unfold mean. rewrite Rsum_map_affine, length_map.
  pose proof (INR_length_pos _ Hl). field. lra.
Qed.

Lemma sum_sq_dev_affine (a b : R) (l : list R) :
  l <> [] ->
  sum_sq_dev (map (fun x => a * x + b) l) = (a * a) * sum_sq_dev l.
Proof.
  intros Hl. unfold sum_sq_dev. rewrite (mean_affine a b l Hl), map_map.
  rewrite <- Rsum_map_scale. f_equal. apply map_ext. intros x. ring.
Qed.

Lemma sum_sq_dev_nonneg (l : list R) : 0 <= sum_sq_dev l.
Proof.
  unfold sum_sq_dev. apply Rsum_nonneg. intros x.
  exact (Rle_0_sqr (x - mean l)).
Qed.

Lemma np_std_affine (a b : R) (l : list R) :
  l <> [] -> 0 <= a ->
  np_std (map (fun x => a * x + b) l) = a * np_std l.
Proof.
  intros Hl Ha. unfold np_std.
  rewrite (sum_sq_dev_affine a b l Hl), length_map.
  replace (a * a * sum_sq_dev l / INR (length l))
    with ((a * a) * (sum_sq_dev l / INR (length l)))
    by (unfold Rdiv; ring).
  rewrite sqrt_mult_alt by nra. now rewrite sqrt_square.
Qed.

(** A list of equal values has no deviation. *)
Lemma np_std_constant (m : R) (l : list R) :
  (forall x, In x l -> x = m) -> np_std l = 0.
Proof.
  intros Hall. destruct l as [|y l].
  - unfold np_std, sum_sq_dev. simpl. unfold Rdiv. rewrite Rmult_0_l.
    apply sqrt_0.
  - assert (Hl : y :: l <> []) by discriminate.
    assert (Hsum : forall l', (forall x, In x l' -> x = m) ->
                              Rsum l' = m * INR (length l')).
    { induction l' as [|z l' IH]; intros H; [simpl; ring|].
      change (length (z :: l')) with (S (length l')). rewrite S_INR. simpl.
      rewrite IH by (intros x Hx; apply H; now right).
      rewrite (H z) by now left. ring. }
    assert (Hm : mean (y :: l) = m).
    { unfold mean. rewrite (Hsum _ Hall).
      pose proof (INR_length_pos _ Hl). field. lra. }
    assert (Hz : sum_sq_dev (y :: l) = 0).
    { unfold sum_sq_dev. rewrite Hm. revert Hall. generalize (y :: l).
      induction l0 as [|z l0 IH]; intros H; simpl; trivial.
      rewrite IH by (intros x Hx; apply H; now right).
      rewrite (H z) by now left. ring. }
    unfold np_std. rewrite Hz. unfold Rdiv. rewrite Rmult_0_l. apply sqrt_0.
Qed.

(** A part of a series that deviates makes the whole series deviate. *)
Lemma pd_std_positive (l part : list R) :
  (forall x, In x part -> In x l) -> np_std part <> 0 -> 0 < pd_std l.
Proof.
  intros Hsub Hpart.
  assert (Hpos : 0 < sum_sq_dev l).
  { destruct (Rle_lt_or_eq_dec _ _ (sum_sq_dev_nonneg l)) as [H|H]; trivial.
    exfalso. apply Hpart. apply (np_std_constant (mean l) part).
    intros x Hx. apply Hsub in Hx. symmetry in H. unfold sum_sq_dev in H.
    pose proof (Rsum_zero_terms
                  (fun x => (x - mean l) * (x - mean l)) l
                  (fun x => Rle_0_sqr (x - mean l)) H x Hx) as Hz.
    simpl in Hz. nra. }
  assert (Hlen : 1 < INR (length l)).
  { destruct l as [|x [|y l]].
    - unfold sum_sq_dev in Hpos; simpl in Hpos. lra.
    - unfold sum_sq_dev, mean in Hpos; simpl in Hpos.
      replace (x + 0) with x in Hpos by ring.
      replace (x / 1) with x in Hpos by field. lra.
    - change (length (x :: y :: l)) with (S (S (length l))).
      rewrite !S_INR. pose proof (pos_INR (length l)). lra. }
  unfold pd_std. apply sqrt_lt_R0. apply Rdiv_lt_0_compat; lra.
Qed.

Lemma rows_containing_map pat (g : R -> R) (s : series) :
  rows_containing pat (map (fun kv => (fst kv, g (snd kv))) s)
  = map (fun kv => (fst kv, g (snd kv))) (rows_containing pat s).
Proof.
  unfold rows_containing.
  induction s as [|kv s IH]; simpl; trivial.
  destruct (contains pat (fst kv)); simpl; now rewrite IH.
Qed.

Lemma rows_containing_values pat (s : series) x :
  In x (map snd (rows_containing pat s)) -> In x (map snd s).
Proof.
  intros H. apply in_map_iff in H. destruct H as [kv [<- Hin]].
  apply filter_In in Hin. apply in_map. tauto.
Qed.

(** The score does not change under a rescaling [x -> a * x + b], [a > 0],
    of both control sets. *)
Lemma Z_affine (a b : R) (pos neg : list R) :
  0 < a -> pos <> [] -> neg <> [] ->
  Z (map (fun x => a * x + b) pos) (map (fun x => a * x + b) neg) = Z pos neg.
Proof.
  intros Ha Hp Hn. unfold Z.
  rewrite !np_std_affine, !mean_affine by (trivial; lra).
  replace (a * mean pos + b - (a * mean neg + b))
    with (a * (mean pos - mean neg)) by ring.
  rewrite Rabs_mult, (Rabs_pos_eq a) by lra.
  unfold Rdiv. rewrite Rinv_mult.
  replace (3 * (a * np_std pos + a * np_std neg)
           * (/ a * / Rabs (mean pos - mean neg)))
    with (3 * (np_std pos + np_std neg) * (a * / a)
          * / Rabs (mean pos - mean neg)) by ring.
  rewrite Rinv_r by lra. now rewrite Rmult_1_r.
Qed.

End ScorerFacts.

(** ** Sensitivity scorer: the score and the efficiency *)

Section ScorerTheorems.

Local Open Scope R_scope.


Lemma np_std_pair (a b : R) : a <> b -> np_std [a; b] <> 0.
Proof.
  intros Hab. unfold np_std, sum_sq_dev, mean. simpl.
  apply Rgt_not_eq, sqrt_lt_R0.
  replace ((a - (a + (b + 0)) / (1 + 1)) * (a - (a + (b + 0)) / (1 + 1))
           + ((b - (a + (b + 0)) / (1 + 1)) * (b - (a + (b + 0)) / (1 + 1)) + 0))
    with ((a - b) * (a - b) / 2) by field.
  assert (0 < (a - b) * (a - b)) by nra. lra.
Qed.


End ScorerTheorems.

(** ** Sensitivity scorer: the score and the efficiency, in binary64 *)

Section SensitivityFacts.

Import PrimFloat.
Import Binary64.
Local Open Scope float_scope.

Variable sum : list float -> float.

(** With [ddof=0] and a value to measure, the standard deviation is the
    population one. *)
Lemma std_population (l : list float) :
  l <> [] ->
  std sum 0 l
  = sqrt (sum (map (fun x => (mean sum l - x) * (mean sum l - x)) l)
          / of_nat (length l)).
Proof.
  destruct l as [|x l]; [congruence|]. intros _.
  unfold std, var. change (length (x :: l) <=? 0)%nat with false.
  now rewrite Nat.sub_0_r.
Qed.

Lemma in_rows_containing (pat : string) (s : series) r v :
  In (r, v) (rows_containing pat s) <-> In (r, v) s /\ contains pat r = true.
Proof.
  unfold rows_containing. now rewrite filter_In.
Qed.

Lemma in_dropna (idx : list string) (c : list float) r v :
  In (r, v) (dropna idx c) <-> In (r, v) (combine idx c) /\ is_nan v = false.
Proof.
  unfold dropna. rewrite filter_In. simpl.
  now rewrite Bool.negb_true_iff.
Qed.

Lemma screen_zscore_separation (s : series) :
  rows_containing "Essential" s <> [] ->
  rows_containing "CTRL" s <> [] ->
  screen_zscore sum s false
  = separation sum (map snd (rows_containing "Essential" s))
                   (map snd (rows_containing "CTRL" s)).
Proof.
  intros Hp Hn. unfold screen_zscore, Z, separation.
  rewrite !std_population; [reflexivity| |].
  - intros H. apply map_eq_nil in H. contradiction.
  - intros H. apply map_eq_nil in H. contradiction.
Qed.

(** A loop that looks up [axis[i]] at every step returns when the figure
    has an axis for every step, and raises otherwise. *)
Lemma mapM_axis_at (A B : Type) (n : nat) (f : A -> B) (l : list A) :
  forall start, (start + length l <= n)%nat ->
  mapM (fun ic => _ <- axis_at n (fst ic) ;; Returned (f (snd ic)))
       (combine (seq start (length l)) l)
  = Returned (map f l).
Proof.
  induction l as [|a l IH]; intros start Hle; simpl; trivial.
  simpl in Hle. unfold axis_at at 1. simpl.
  destruct (Nat.ltb_spec start n) as [_|H]; [|lia]. simpl.
  rewrite IH by lia. reflexivity.
Qed.

Lemma mapM_axis_at_raises (A B : Type) (n : nat) (f : A -> B) (l : list A) :
  forall start, l <> [] -> (n < start + length l)%nat ->
  mapM (fun ic => _ <- axis_at n (fst ic) ;; Returned (f (snd ic)))
       (combine (seq start (length l)) l)
  = Raised IndexError.
Proof.
  induction l as [|a l IH]; intros start Hne Hlt; [congruence|].
  change (combine (seq start (length (a :: l))) (a :: l))
    with ((start, a) :: combine (seq (S start) (length l)) l).
  cbn [mapM fst snd]. unfold axis_at at 1.
  destruct (Nat.ltb_spec start n) as [H|H]; [|reflexivity].
  destruct l as [|b l]; [simpl in Hlt; lia|].
  rewrite IH; [reflexivity|discriminate|simpl in *; lia].
Qed.

(** The rows of a screen: one for each column, last column first, when the
    figure has an axis for each. *)
Lemma zez_of_screen_fits (screen : DataFrame float) (name : string) :
  (length (cols screen) <= axes name)%nat ->
  zez_of_screen sum screen name
  = Returned (map (score_row sum screen name) (rev (cols screen))).
Proof.
  intros Hle. unfold zez_of_screen. rewrite <- (length_rev (cols screen)).
  apply (mapM_axis_at _ _ (axes name) (score_row sum screen name)).
  rewrite length_rev. exact Hle.
Qed.

Lemma zez_of_screen_raises (screen : DataFrame float) (name : string) :
  (axes name < length (cols screen))%nat ->
  zez_of_screen sum screen name = Raised IndexError.
Proof.
  intros Hlt. unfold zez_of_screen. rewrite <- (length_rev (cols screen)).
  apply (mapM_axis_at_raises _ _ (axes name) (score_row sum screen name)).
  - intros H. apply (f_equal (@length _)) in H. rewrite length_rev in H.
    simpl in H. lia.
  - rewrite length_rev. exact Hlt.
Qed.

(** The loop over the screens returns the rows of all of them when every
    screen fits its figure, and only then. *)
Lemma zez_rows (screens : list (DataFrame float * string)) rowss :
  mapM (fun sn => zez_of_screen sum (fst sn) (snd sn)) screens = Returned rowss ->
  (forall sn, In sn screens ->
              (length (cols (fst sn)) <= axes (snd sn))%nat) /\
  concat rowss
  = flat_map (fun sn => map (score_row sum (fst sn) (snd sn))
                            (rev (cols (fst sn)))) screens.
Proof.
  revert rowss. induction screens as [|sn screens IH]; intros rowss H.
  - simpl in H. inversion H; subst. split; [intros sn []|reflexivity].
  - simpl in H.
    destruct (le_lt_dec (length (cols (fst sn))) (axes (snd sn))) as [Hle|Hlt].
    + rewrite (zez_of_screen_fits _ _ Hle) in H. simpl in H.
      destruct (mapM (fun sn0 => zez_of_screen sum (fst sn0) (snd sn0)) screens)
        as [rest|e] eqn:E; simpl in H; [|discriminate].
      inversion H; subst. destruct (IH rest eq_refl) as [Hfit Hrows]. split.
      * intros sn' [<-|Hin]; [exact Hle|now apply Hfit].
      * simpl. now rewrite Hrows.
    + rewrite (zez_of_screen_raises _ _ Hlt) in H. discriminate.
Qed.

Lemma zez_rows_fit (screens : list (DataFrame float * string)) :
  (forall sn, In sn screens ->
              (length (cols (fst sn)) <= axes (snd sn))%nat) ->
  mapM (fun sn => zez_of_screen sum (fst sn) (snd sn)) screens
  = Returned (map (fun sn => map (score_row sum (fst sn) (snd sn))
                                 (rev (cols (fst sn)))) screens).
Proof.
  induction screens as [|sn screens IH]; intros Hfit; simpl; trivial.
  rewrite (zez_of_screen_fits _ _ (Hfit sn (or_introl eq_refl))). simpl.
  rewrite IH by (intros sn' Hin; apply Hfit; now right). reflexivity.
Qed.

Lemma flat_map_not_nil (A B : Type) (f : A -> list B) (l : list A) :
  flat_map f l <> [] <-> exists a, In a l /\ f a <> [].
Proof.
  induction l as [|a l IH]; simpl.
  - split; [congruence|]. now intros [a [[] _]].
  - split.
    + intros H. destruct (f a) as [|b bs] eqn:E.
      * simpl in H. apply IH in H. destruct H as [a' [Hin Ha']].
        exists a'. split; [now right|exact Ha'].
      * exists a. split; [now left|]. rewrite E. discriminate.
    + intros [a' [[<-|Hin] Ha']] H; apply app_eq_nil in H; destruct H as [H1 H2].
      * contradiction.
      * apply IH in H2; trivial. now exists a'.
Qed.

End SensitivityFacts.

Section SensitivityTheorems.

Import PrimFloat.
Import Binary64.
Local Open Scope float_scope.

(** C4.  As the code computes it, in binary64 and whatever the order [sum]
    adds in: without z-scoring, [screen_zscore] of a column with positive
    and negative controls is
    [1 - 3 (std(pos) + std(neg)) / |mean(pos) - mean(neg)|] on the rows whose
    id contains "Essential" and those whose id contains "CTRL", with the
    population standard deviation.  The summary has one row for each column
    of each screen, last column first; the score of a row is the score of
    its column without its missing values, and its efficiency is
    [1 / -score].  The summary is returned when every screen has no more
    columns than its figure has axes and some screen has a column. *)
Theorem screen_zscore_efficiency (sum : list float -> float) (s : series)
  (screens : list (DataFrame float * string)) :
  rows_containing "Essential" s <> [] ->
  rows_containing "CTRL" s <> [] ->
  screen_zscore sum s false
  = separation sum (map snd (rows_containing "Essential" s))
                   (map snd (rows_containing "CTRL" s)) /\
  (forall pat r v, In (r, v) (rows_containing pat s)
                   <-> In (r, v) s /\ contains pat r = true) /\
  ((exists rows, zez sum screens = Returned rows) <->
   (forall sn, In sn screens ->
               (length (cols (fst sn)) <= axes (snd sn))%nat) /\
   (exists sn, In sn screens /\ cols (fst sn) <> [])) /\
  forall rows, zez sum screens = Returned rows ->
    map (fun row => (timepoint row, sample row)) rows
    = flat_map (fun sn => map (fun nc => (snd sn, fst nc))
                              (rev (cols (fst sn)))) screens /\
    forall row, In row rows ->
      efficiency row = 1 / - z_score row /\
      id row = (timepoint row ++ " " ++ sample row)%string /\
      exists screen nc,
        In (screen, timepoint row) screens /\ In nc (cols screen) /\
        sample row = fst nc /\
        z_score row = screen_zscore sum (dropna (index screen) (snd nc)) false /\
        (forall r v, In (r, v) (dropna (index screen) (snd nc))
                     <-> In (r, v) (combine (index screen) (snd nc))
                         /\ is_nan v = false) /\
        (rows_containing "Essential" (dropna (index screen) (snd nc)) <> [] ->
         rows_containing "CTRL" (dropna (index screen) (snd nc)) <> [] ->
         z_score row
         = separation sum
             (map snd (rows_containing "Essential"
                         (dropna (index screen) (snd nc))))
             (map snd (rows_containing "CTRL"
                         (dropna (index screen) (snd nc))))).
Proof.
  intros Hp Hn.
  split; [now apply screen_zscore_separation|].
  split; [intros pat r v; apply in_rows_containing|].
  set (g := fun sn : DataFrame float * string =>
              map (score_row sum (fst sn) (snd sn)) (rev (cols (fst sn)))).
  assert (Hcol : forall sn, g sn <> [] <-> cols (fst sn) <> []).
  { intros sn. unfold g. split; intros H C; apply H.
    - now rewrite C.
    - apply map_eq_nil in C. apply (f_equal (@rev _)) in C.
      now rewrite rev_involutive in C. }
  split.
  { split.
    - intros [rows H]. unfold zez in H.
      destruct (mapM (fun sn => zez_of_screen sum (fst sn) (snd sn)) screens)
        as [rowss|e] eqn:E; simpl in H; [|discriminate].
      destruct (zez_rows sum screens rowss E) as [Hfit Hrows]. split; trivial.
      rewrite Hrows in H. fold g in H.
      assert (F : flat_map g screens <> [])
        by (intros F; rewrite F in H; discriminate).
      apply flat_map_not_nil in F. destruct F as [sn [Hin Hsn]].
      exists sn. split; trivial. now apply Hcol.
    - intros [Hfit [sn [Hin Hsn]]]. unfold zez.
      rewrite (zez_rows_fit sum screens Hfit). simpl.
      rewrite <- flat_map_concat_map. fold g.
      assert (F : flat_map g screens <> []).
      { apply flat_map_not_nil. exists sn. split; trivial. now apply Hcol. }
      destruct (flat_map g screens) as [|row rest]; [congruence|].
      eexists. reflexivity. }
  intros rows H. unfold zez in H.
  destruct (mapM (fun sn => zez_of_screen sum (fst sn) (snd sn)) screens)
    as [rowss|e] eqn:E; simpl in H; [|discriminate].
  destruct (zez_rows sum screens rowss E) as [_ Hrows].
  rewrite Hrows in H. fold g in H.
  assert (Hr : rows = map summary_row (flat_map g screens)).
  { destruct (flat_map g screens) as [|row rest]; [discriminate|].
    now inversion H. }
  clear H. subst rows. split.
  - rewrite map_map. clear E Hrows. induction screens as [|sn screens IH];
      simpl; trivial.
    rewrite map_app, IH. f_equal. unfold g. rewrite map_map.
    apply map_ext. intros nc. reflexivity.
  - intros row Hrow. apply in_map_iff in Hrow.
    destruct Hrow as [[[name col] z] [<- Hin]].
    apply in_flat_map in Hin. destruct Hin as [[screen name'] [Hs Hin]].
    unfold g in Hin. simpl in Hin. apply in_map_iff in Hin.
    destruct Hin as [nc [Heq Hnc]]. unfold score_row in Heq.
    inversion Heq; subst. apply in_rev in Hnc. simpl.
    split; [reflexivity|]. split; [reflexivity|].
    exists screen, nc. split; [exact Hs|]. split; [exact Hnc|].
    split; [reflexivity|]. split; [reflexivity|].
    split; [intros r v; apply in_dropna|].
    apply screen_zscore_separation.
Qed.

(** On the sample screen: the score is about -0.8 and the efficiency 1.25. *)
Lemma screen_zscore_efficiency_witness :
  rows_containing "Essential" two_controls64 <> [] /\
  rows_containing "CTRL" two_controls64 <> [] /\
  screen_zscore in_order two_controls64 false
  = separation in_order [1; 3] [5; 9] /\
  separation in_order [1; 3] [5; 9] = -0x1.999999999999ap-1 /\
  zez in_order [(control_screen, "original")]
  = Returned [ {| timepoint := "original"; sample := "S_TCR";
                  z_score := -0x1.999999999999ap-1;
                  id := "original S_TCR"; efficiency := 1.25 |} ].
Proof.
  assert (Hp : rows_containing "Essential" two_controls64 <> [])
    by (simpl; discriminate).
  assert (Hn : rows_containing "CTRL" two_controls64 <> [])
    by (simpl; discriminate).
  split; [exact Hp|]. split; [exact Hn|]. split.
  - exact (proj1 (screen_zscore_efficiency in_order two_controls64
                    [(control_screen, "original")] Hp Hn)).
  - split; vm_compute; reflexivity.
Defined.

(** Control sets with the same mean: the division is by zero and the score
    is minus infinity; a screen of three samples under the name "original",
    whose figure has two axes, raises. *)
Lemma screen_zscore_examples :
  screen_zscore in_order equal_means64 false = neg_infinity /\
  zez in_order [(three_samples64, "original")] = Raised IndexError /\
  zez in_order [] = Raised ValueError.
Proof.
  repeat split; vm_compute; reflexivity.
Qed.

(** The two scores of the sample column differ in binary64. *)
Lemma screen_zscore_z_score_rounds :
  (forall kv, In kv two_controls64 -> contains "Essential" (fst kv) = true ->
              contains "CTRL" (fst kv) = true -> False) /\
  std in_order 0 (map snd (rows_containing "Essential" two_controls64)) = 1 /\
  std in_order 0 (map snd (rows_containing "CTRL" two_controls64)) = 2 /\
  screen_zscore in_order two_controls64 false = -0x1.999999999999ap-1 /\
  screen_zscore in_order two_controls64 true = -0x1.999999999999cp-1 /\
  screen_zscore in_order two_controls64 true
  <> screen_zscore in_order two_controls64 false.
Proof.
  split.
  { intros kv Hin. simpl in Hin.
    repeat (destruct Hin as [<-|Hin]; [simpl; discriminate|]).
    contradiction. }
  split; [vm_compute; reflexivity|]. split; [vm_compute; reflexivity|].
  split; [vm_compute; reflexivity|]. split; [vm_compute; reflexivity|].
  intros H.
  assert (E : PrimFloat.eqb (screen_zscore in_order two_controls64 true)
                            (screen_zscore in_order two_controls64 false)
              = false) by (vm_compute; reflexivity).
  rewrite H in E. vm_compute in E. discriminate.
Qed.

End SensitivityTheorems.

(** ** Comparator: ranks *)

Section RankFacts.

Local Open Scope R_scope.

Lemma Rgtb_irrefl a : Rgtb a a = false.
Proof.
  unfold Rgtb. destruct (Rlt_dec a a) as [H|H]; trivial.
  now apply Rlt_irrefl in H.
Qed.

Lemma Reqb_refl a : Reqb a a = true.
Proof.
  unfold Reqb. destruct (Req_dec_T a a) as [H|H]; trivial. contradiction.
Qed.

Lemma count_values_cons p c l :
  count_values p (c :: l)
  = ((match c with Some w => if p w then 1 else 0 | None => 0 end)
     + count_values p l)%nat.
Proof.
  unfold count_values. simpl. destruct c as [w|]; trivial.
  now destruct (p w).
Qed.

Lemma nth_value_in_range (l : list (option R)) p v :
  nth p l None = Some v -> (p < length l)%nat.
Proof.
  intros H. destruct (Nat.lt_ge_cases p (length l)) as [Hlt|Hge]; trivial.
  rewrite nth_overflow in H by exact Hge. discriminate.
Qed.

(** A longer prefix that takes in a value satisfying [f] counts more. *)
Lemma count_firstn_lt f l : forall p q v,
  (p < q)%nat -> nth p l None = Some v -> f v = true ->
  (count_values f (firstn p l) < count_values f (firstn q l))%nat.
Proof.
  induction l as [|c l IH]; intros p q v Hpq Hp Hf.
  - destruct p; discriminate.
  - destruct q as [|q]; [lia|]. destruct p as [|p]; simpl in Hp.
    + subst c. simpl. rewrite count_values_cons, Hf.
      unfold count_values at 1. simpl. lia.
    + simpl. rewrite !count_values_cons.
      assert (Hpq' : (p < q)%nat) by lia.
      specialize (IH p q v Hpq' Hp Hf). lia.
Qed.

(** The values above or equal to [v] are all above a smaller [w]. *)
Lemma count_above_or_equal l v w :
  w < v ->
  (count_values (fun u => Rgtb u v) l + count_values (Reqb v) l
   <= count_values (fun u => Rgtb u w) l)%nat.
Proof.
  intros Hwv. induction l as [|c l IH]; [unfold count_values; simpl; lia|].
  rewrite !count_values_cons. destruct c as [u|]; [|lia].
  destruct (Rgtb u v) eqn:G, (Reqb v u) eqn:E, (Rgtb u w) eqn:G';
    try lia; exfalso; unfold Rgtb, Reqb in *;
    destruct (Rlt_dec v u), (Req_dec_T v u), (Rlt_dec w u);
    try discriminate; lra.
Qed.

Lemma rank_at_value l p v :
  nth p l None = Some v ->
  rank_at l p = Some (1 + count_values (fun w => Rgtb w v) l
                      + count_values (Reqb v) (firstn p l))%nat.
Proof.
  intros H. unfold rank_at. now rewrite H.
Qed.

(** A larger value has a smaller rank; of two equal values the one that
    comes first in the series has the smaller rank. *)
Lemma rank_first_desc_order l p q v w :
  nth p l None = Some v -> nth q l None = Some w ->
  exists rp rq,
    rank_at l p = Some rp /\ rank_at l q = Some rq /\
    (w < v -> (rp < rq)%nat) /\
    (v = w -> (p < q)%nat -> (rp < rq)%nat).
Proof.
  intros Hp Hq. rewrite (rank_at_value l p v Hp), (rank_at_value l q w Hq).
  do 2 eexists. split; [reflexivity|]. split; [reflexivity|]. split.
  - intros Hwv. pose proof (count_above_or_equal l v w Hwv) as Hc.
    pose proof (nth_value_in_range l p v Hp) as Hlen.
    pose proof (count_firstn_lt (Reqb v) l p (length l) v Hlen Hp
                  (Reqb_refl v)) as Hf.
    rewrite firstn_all in Hf. lia.
  - intros <- Hpq.
    pose proof (count_firstn_lt (Reqb v) l p q v Hpq Hp (Reqb_refl v)). lia.
Qed.

Lemma rank_first_desc_example :
  rank_first_desc [Some 2; Some (-1); Some (1 / 2)]
  = [Some 1%nat; Some 3%nat; Some 2%nat].
Proof.
  unfold rank_first_desc, rank_at, count_values, Rgtb, Reqb. simpl.
  repeat match goal with
         | |- context [Rlt_dec ?a ?b] => destruct (Rlt_dec a b); try lra
         | |- context [Req_dec_T ?a ?b] => destruct (Req_dec_T a b); try lra
         end.
  reflexivity.
Qed.

Lemma fold_change_cell_counts (t r : R) :
  0 <= t -> 0 <= r ->
  fold_change_cell (Some t) (Some r)
  = Some (ln (1 + t) / ln 2 - ln (1 + r) / ln 2).
Proof.
  intros Ht Hr. unfold fold_change_cell, log2, lift2.
  destruct (Rlt_dec 0 (1 + t)) as [_|H]; [|lra].
  destruct (Rlt_dec 0 (1 + r)) as [_|H]; [|lra]. reflexivity.
Qed.

(** Two guides with the same fold-change, drawn in the order B, A. *)
Lemma tie_iteration :
  gRNA_rank_iteration tie_s1 tie_s2 "original-crop_screen" [1; 0]%nat 0 "S_TCR" None
  = Returned
      (Some [("CTRL_B"%string, Some tie_fc); ("CTRL_A"%string, Some tie_fc)],
       [ mkPoint "CTRL_B" (Some 1%nat) (Some tie_fc) colorblind1;
         mkPoint "CTRL_A" (Some 2%nat) (Some tie_fc) colorblind1 ]).
Proof.
  cbv -[fold_change_cell Rgtb Reqb IZR tie_fc].
  rewrite (fold_change_cell_counts 3 1) by lra. fold tie_fc.
  rewrite !Rgtb_irrefl, !Reqb_refl. reflexivity.
Qed.

End RankFacts.

(** ** Comparator: the frame of an iteration *)

Section BranchFacts.

Variable T : Type.
Variable measure : frame -> string -> string -> result T.
Variable screen : string.

Lemma narrowed_refl st : narrowed measure screen st st.
Proof.
  split; [|now left]. exists (fun _ => true). split; [easy|].
  induction (index (fst st)) as [|r l IH]; simpl; congruence.
Qed.

Lemma filter_filter (f g : string -> bool) (l : list string) :
  filter g (filter f l) = filter (fun r => f r && g r) l.
Proof.
  induction l as [|r l IH]; simpl; trivial.
  destruct (f r); simpl; [destruct (g r)|]; now rewrite IH.
Qed.

Lemma narrowed_trans st1 st2 st3 :
  narrowed measure screen st1 st2 -> narrowed measure screen st2 st3 ->
  narrowed measure screen st1 st3.
Proof.
  intros [[k1 [K1 I1]] F1] [[k2 [K2 I2]] F2]. split.
  - exists (fun r => k1 r && k2 r). split.
    + intros r Hw Ht. now rewrite K1, K2.
    + now rewrite I2, I1, filter_filter.
  - destruct F2 as [->|F2]; [exact F1 | now right].
Qed.

Lemma against_narrowed excluded reference st st' :
  excluded = "Wnt"%string \/ excluded = "Tcr"%string ->
  against measure excluded reference screen st = Returned st' ->
  narrowed measure screen st st'.
Proof.
  intros Hex H. unfold against in H.
  destruct (measure _ screen reference) as [m|e] eqn:E; simpl in H;
    [|discriminate].
  inversion H; subst; clear H. split.
  - exists (fun r => negb (contains excluded r)). split; [|reflexivity].
    intros r Hw Ht. destruct Hex as [->| ->]; now rewrite ?Hw, ?Ht.
  - right. now exists reference, m.
Qed.

Lemma when_narrowed b excluded reference st st' :
  excluded = "Wnt"%string \/ excluded = "Tcr"%string ->
  when b (against measure excluded reference screen) st = Returned st' ->
  narrowed measure screen st st'.
Proof.
  intros Hex H. destruct b; simpl in H.
  - now apply (against_narrowed excluded reference).
  - inversion H. apply narrowed_refl.
Qed.

Lemma branches_narrowed prefix st st' :
  branches measure prefix screen st = Returned st' ->
  narrowed measure screen st st'.
Proof.
  unfold branches. intros H.
  destruct (contains "original" prefix);
    [|destruct (negb (contains "plasmid" prefix)); [|discriminate]].
  - destruct (when (contains "TCR" screen) _ st) as [st1|] eqn:E1;
      simpl in H; [|discriminate].
    apply when_narrowed in E1; [|now left].
    apply when_narrowed in H; [|now right].
    now apply (narrowed_trans _ st1).
  - destruct (when (contains "TCR" screen) _ st) as [st1|] eqn:E1;
      simpl in H; [|discriminate].
    destruct (when (contains "_4_WNT" screen) _ st1) as [st2|] eqn:E2;
      simpl in H; [|discriminate].
    apply when_narrowed in E1; [|now left].
    apply when_narrowed in E2; [|now right].
    apply when_narrowed in H; [|now right].
    apply (narrowed_trans _ st1); trivial. now apply (narrowed_trans _ st2).
Qed.

(** The rows of [x] in an iteration are rows of the shuffled join, in its
    order; the quantity is the one carried over or is measured on [x]. *)
Lemma shuffled_branches_narrowed perm s1 s2 prefix carry st :
  shuffled_branches measure perm s1 s2 prefix screen carry = Returned st ->
  (exists keep, keeps_strays keep /\
     index (fst st)
     = filter keep (map (fun k => nth k (index s1) ""%string) perm)) /\
  (snd st = carry \/
   exists reference m,
     measure (fst st) screen reference = Returned m /\ snd st = Some m).
Proof.
  unfold shuffled_branches, join. intros H.
  destruct (existsb _ (columns s2)); simpl in H; [discriminate|].
  apply branches_narrowed in H. destruct H as [[keep [K I]] F].
  split; [now exists keep|]. destruct F as [->|F]; [now left | now right].
Qed.

End BranchFacts.

Section ColourFacts.

Lemma colour_of_cases r :
  (exists c, colour_of r = Returned c) \/ colour_of r = Raised IndexError.
Proof.
  unfold colour_of, first_flagged, colour_flags. simpl.
  destruct (contains "Wnt" r), (contains "CTRL" r),
    (contains "Tcr" r), (contains "Ess" r); simpl; eauto.
Qed.

Lemma colour_of_uncoloured r :
  uncoloured r -> colour_of r = Raised IndexError.
Proof.
  intros (H1 & H2 & H3 & H4).
  unfold colour_of, first_flagged, colour_flags. simpl.
  now rewrite H1, H2, H3, H4.
Qed.

Lemma mapM_colour_of_uncoloured r idx :
  uncoloured r -> In r idx -> mapM colour_of idx = Raised IndexError.
Proof.
  intros Hr. induction idx as [|a idx IH]; [contradiction|].
  intros Hin. simpl.
  destruct (colour_of_cases a) as [[c Hc]|Hc]; rewrite Hc; simpl; trivial.
  destruct Hin as [->|Hin].
  - rewrite (colour_of_uncoloured r Hr) in Hc. discriminate.
  - now rewrite IH.
Qed.

Lemma colours_uncoloured r idx :
  uncoloured r -> In r idx -> colours idx = Raised IndexError.
Proof.
  intros Hr Hin. unfold colours. destruct idx as [|a idx]; [contradiction|].
  now apply (mapM_colour_of_uncoloured r).
Qed.

Lemma uncoloured_stray r :
  uncoloured r -> contains "Wnt" r = false /\ contains "Tcr" r = false.
Proof. intros (H1 & _ & H3 & _). now split. Qed.

Lemma shuffled_row (idx : list string) (perm : list nat) r :
  In r idx -> Permutation perm (seq 0 (length idx)) ->
  In r (map (fun k => nth k idx ""%string) perm).
Proof.
  intros Hin Hperm. destruct (In_nth idx r ""%string Hin) as [k [Hk Hnth]].
  apply in_map_iff. exists k. split; trivial.
  apply (Permutation_in k (Permutation_sym Hperm)).
  apply in_seq. lia.
Qed.

(** With a guide of no category in [s1], the colours of an iteration,
    when it gets to them, raise. *)
Lemma iteration_colours_raise (T : Type)
  (measure : frame -> string -> string -> result T)
  perm s1 s2 prefix screen carry st r :
  uncoloured r -> In r (index s1) ->
  Permutation perm (seq 0 (length (index s1))) ->
  shuffled_branches measure perm s1 s2 prefix screen carry = Returned st ->
  colours (index (fst st)) = Raised IndexError.
Proof.
  intros Hr Hin Hperm H.
  apply shuffled_branches_narrowed in H. destruct H as [[keep [K I]] _].
  apply (colours_uncoloured r); trivial. rewrite I. apply filter_In. split.
  - now apply shuffled_row.
  - destruct (uncoloured_stray r Hr). now apply K.
Qed.

End ColourFacts.

(** ** Comparator: ranks and colours of the plots *)

Section ComparatorTheorems.

Local Open Scope R_scope.

Lemma map_fst_combine (A B : Type) (l : list A) : forall l' : list B,
  map fst (combine l l') = firstn (length (combine l l')) l.
Proof.
  induction l as [|a l IH]; intros [|b l']; simpl; trivial.
  now rewrite IH.
Qed.

Lemma fold_change_index x screen reference fc :
  fold_change x screen reference = Returned fc ->
  map fst fc = firstn (length fc) (index x).
Proof.
  unfold fold_change. intros H.
  destruct (getcol x screen) as [t|]; simpl in H; [|discriminate].
  destruct (getcol x reference) as [r|]; simpl in H; [|discriminate].
  inversion H. apply map_fst_combine.
Qed.

(** C8, as the code has it.  In an iteration of [gRNA_rank] that gets to
    its plot, the guides are ranked by decreasing fold-change: a larger
    fold-change has a smaller rank, and equal fold-changes are ranked in
    the order of the rows of the frame [x], which is the order drawn by
    [np.random.permutation], not the order of the input.  For the
    fold-changes 2.0, -1.0, 0.5 of the guides A, B, C the ranks are A=1,
    C=2, B=3. *)
Theorem gRNA_rank_order s1 s2 prefix perm i screen carry carry' pts :
  gRNA_rank_iteration s1 s2 prefix perm i screen carry
  = Returned (carry', pts) ->
  combine ["A"; "B"; "C"]%string
          (rank_first_desc [Some 2; Some (-1); Some (1 / 2)])
  = [("A"%string, Some 1%nat); ("B"%string, Some 3%nat);
     ("C"%string, Some 2%nat)] /\
  exists x fc cs,
    shuffled_branches fold_change perm s1 s2 prefix screen carry
    = Returned (x, Some fc) /\
    carry' = Some fc /\
    colours (index x) = Returned cs /\
    pts = points (map fst fc) (rank_first_desc (map snd fc)) (map snd fc) cs /\
    (exists keep,
       index x = filter keep (map (fun k => nth k (index s1) ""%string) perm)) /\
    (carry = Some fc \/
     exists reference,
       fold_change x screen reference = Returned fc /\
       map fst fc = firstn (length fc) (index x)) /\
    forall p q v w,
      nth p (map snd fc) None = Some v ->
      nth q (map snd fc) None = Some w ->
      exists rp rq,
        rank_at (map snd fc) p = Some rp /\
        rank_at (map snd fc) q = Some rq /\
        (w < v -> (rp < rq)%nat) /\
        (v = w -> (p < q)%nat -> (rp < rq)%nat).
Proof.
  intros H. split; [now rewrite rank_first_desc_example|].
  unfold gRNA_rank_iteration in H.
  destruct (shuffled_branches fold_change perm s1 s2 prefix screen carry)
    as [[x m]|] eqn:E; simpl in H; [|discriminate].
  destruct m as [fc|]; simpl in H; [|discriminate].
  destruct (colours (index x)) as [cs|] eqn:C; simpl in H; [|discriminate].
  destruct (axis i); simpl in H; [|discriminate].
  inversion H; subst; clear H.
  pose proof (shuffled_branches_narrowed _ _ _ _ _ _ _ _ _ E) as [[keep [_ I]] F].
  simpl in I, F.
  exists x, fc, cs. repeat split; trivial.
  - now exists keep.
  - destruct F as [F|[reference [m [Hm Hs]]]]; [now left|].
    right. inversion Hs; subst. exists reference. split; trivial.
    now apply (fold_change_index x screen reference).
  - intros p q v w Hp Hq. now apply rank_first_desc_order.
Qed.

Lemma gRNA_rank_order_witness :
  gRNA_rank_iteration tie_s1 tie_s2 "original-crop_screen" [1; 0]%nat 0
                      "S_TCR" None
  = Returned
      (Some [("CTRL_B"%string, Some tie_fc); ("CTRL_A"%string, Some tie_fc)],
       [ mkPoint "CTRL_B" (Some 1%nat) (Some tie_fc) colorblind1;
         mkPoint "CTRL_A" (Some 2%nat) (Some tie_fc) colorblind1 ]) /\
  combine ["A"; "B"; "C"]%string
          (rank_first_desc [Some 2; Some (-1); Some (1 / 2)])
  = [("A"%string, Some 1%nat); ("B"%string, Some 3%nat);
     ("C"%string, Some 2%nat)].
Proof.
  split; [exact tie_iteration|].
  exact (proj1 (gRNA_rank_order _ _ _ _ _ _ _ _ _ tie_iteration)).
Defined.

(** The claim C8 as the specification words it fails: of two guides with
    the same fold-change, A before B in the input, B is ranked first when
    the shuffle draws it first. *)
Lemma gRNA_rank_ties_not_input_order :
  index tie_s1 = ["CTRL_A"; "CTRL_B"]%string /\
  index tie_s2 = ["CTRL_A"; "CTRL_B"]%string /\
  exists carry pts,
    gRNA_rank_iteration tie_s1 tie_s2 "original-crop_screen" [1; 0]%nat 0
                        "S_TCR" None
    = Returned (carry, pts) /\
    map (fun p => (guide p, abscissa p, ordinate p)) pts
    = [ ("CTRL_B"%string, Some 1%nat, Some tie_fc);
        ("CTRL_A"%string, Some 2%nat, Some tie_fc) ].
Proof.
  split; [reflexivity|]. split; [reflexivity|].
  do 2 eexists. split; [exact tie_iteration | reflexivity].
Qed.

Lemma iterate_first_raises (T Out : Type)
  (body : list nat -> nat -> string -> option T -> result (option T * Out))
  perms screens :
  screens <> [] ->
  (forall screen, exists e, body (perms 0%nat) 0%nat screen None = Raised e) ->
  exists e, iterate body perms 0 screens None = Raised e.
Proof.
  intros Hs Hb. destruct screens as [|screen rest]; [congruence|].
  destruct (Hb screen) as [e He]. exists e. simpl. now rewrite He.
Qed.

Lemma rev_not_nil (A : Type) (l : list A) : l <> [] -> rev l <> [].
Proof.
  intros Hl H. apply Hl. rewrite <- (rev_involutive l), H. reflexivity.
Qed.

Lemma colour_of_priority g :
  (contains "Wnt" g = true -> colour_of g = Returned colorblind0) /\
  (contains "Wnt" g = false -> contains "CTRL" g = true ->
   colour_of g = Returned colorblind1) /\
  (contains "Wnt" g = false -> contains "CTRL" g = false ->
   contains "Tcr" g = true -> colour_of g = Returned colorblind2) /\
  (contains "Wnt" g = false -> contains "CTRL" g = false ->
   contains "Tcr" g = false -> contains "Ess" g = true ->
   colour_of g = Returned colorblind3).
Proof.
  unfold colour_of, first_flagged, colour_flags. simpl.
  destruct (contains "Wnt" g), (contains "CTRL" g),
    (contains "Tcr" g), (contains "Ess" g); simpl;
    repeat split; intros; (reflexivity || discriminate).
Qed.

Lemma colour_of_total_iff g :
  (exists c, colour_of g = Returned c) <-> ~ uncoloured g.
Proof.
  unfold colour_of, first_flagged, colour_flags, uncoloured. simpl.
  destruct (contains "Wnt" g), (contains "CTRL" g),
    (contains "Tcr" g), (contains "Ess" g); simpl; split;
    try (intros _ (H1 & H2 & H3 & H4); discriminate);
    try (intros [c H]; discriminate);
    try (intros _; eexists; reflexivity);
    try (intros H; exfalso; apply H; repeat split).
Qed.

Lemma gRNA_rank_raises perms s1 s2 prefix e :
  iterate (gRNA_rank_iteration s1 s2 prefix) perms 0 (rev (columns s2)) None
  = Raised e ->
  gRNA_rank perms s1 s2 prefix = Raised e.
Proof.
  intros H. unfold gRNA_rank. now rewrite H.
Qed.



(** The claim C10 as worded fails: an input with a guide of no category need
    not make the plots fail.  The join keeps the guides of [s1] only, so a
    guide of no category counted in the sample alone is never coloured, and
    the three plots return. *)
Lemma colours_skip_guides_of_s2 :
  uncoloured "Unknown_1" /\
  In "Unknown_1"%string (index stray_in_sample) /\
  gRNA_rank (fun _ => [1; 0]%nat) tie_s1 stray_in_sample "original-crop_screen"
  = Returned
      [[ mkPoint "CTRL_B" (Some 1%nat) (Some tie_fc) colorblind1;
         mkPoint "CTRL_A" (Some 2%nat) (Some tie_fc) colorblind1 ]] /\
  (exists plots,
     gRNA_scatter (fun _ => [1; 0]%nat) tie_s1 stray_in_sample
                  "original-crop_screen" = Returned plots) /\
  (exists plots,
     gRNA_maplot (fun _ => [1; 0]%nat) tie_s1 stray_in_sample
                 "original-crop_screen" = Returned plots).
Proof.
  split; [vm_compute; repeat split|]. split; [simpl; tauto|].
  split; [|split].
  - cbv -[fold_change_cell Rgtb Reqb IZR tie_fc].
    rewrite (fold_change_cell_counts 3 1) by lra. fold tie_fc.
    rewrite !Rgtb_irrefl, !Reqb_refl. reflexivity.
  - eexists. cbv -[log2 lift2 IZR]. reflexivity.
  - eexists. cbv -[fold_change_cell IZR]. reflexivity.
Qed.

End ComparatorTheorems.

(** * Further properties *)

(** ** Filter: what survives *)

Section FilterSurvivors.

Local Open Scope Q_scope.

Lemma isin_labels_containing_false (A : Type) pat (df : DataFrame A) r :
  contains pat r = false -> isin r (labels_containing pat df) = false.
Proof.
  intros H. apply isin_false. unfold labels_containing. intros Hin.
  apply filter_In in Hin. destruct Hin as [_ Hin]. congruence.
Qed.

Lemma masked_label_iff (A : Type) pat (df : DataFrame A) r :
  In r (index df) ->
  (isin r (labels_containing pat df) = false <-> contains pat r = false).
Proof.
  intros Hin. split.
  - intros H. destruct (contains pat r) eqn:E; trivial.
    now rewrite (isin_labels_containing _ pat df r Hin E) in H.
  - apply isin_labels_containing_false.
Qed.

Lemma set_loc_nan_labels pat col (df : DataFrame cell) r c v (b : bool) :
  (c = col -> b = contains pat r) ->
  (In (r, c, Some v)
      (entries (set_loc_nan (labels_containing pat df) col df)) <->
   In (r, c, Some v) (entries df) /\ (c = col -> b = false)).
Proof.
  intros Hb. rewrite entries_set_loc_nan. split; intros [H Hm]; split; trivial;
    intros Hc; specialize (Hm Hc); specialize (Hb Hc);
    pose proof (masked_label_iff _ pat df r (entries_row _ _ _ _ _ H)) as M.
  - rewrite Hb. now apply M.
  - apply M. now rewrite <- Hb.
Qed.

(** One iteration masks the cells of its column that the class of the
    column singles out, and no other cell. *)
Lemma step_entries st col r c v :
  (In (r, c, Some v) (entries (fst (opposite_library_step st col))) <->
   In (r, c, Some v) (entries (fst st)) /\
   (c = col -> cross_library r c = false)) /\
  (In (r, c, Some v) (entries (snd (opposite_library_step st col))) <->
   In (r, c, Some v) (entries (snd st)) /\
   (c = col -> own_library r c = false)).
Proof.
  destruct st as [df filtered]. unfold opposite_library_step.
  destruct (contains "TCR" col || contains "Jurkat" col) eqn:E1;
    [|destruct (contains "WNT" col || contains "HEK" col) eqn:E2]; simpl.
  - split; apply set_loc_nan_labels; intros ->;
      unfold cross_library, own_library, wnt_only_column, tcr_column;
      rewrite E1; simpl; apply orb_false_r.
  - split; apply set_loc_nan_labels; intros ->;
      unfold cross_library, own_library, wnt_only_column, wnt_column,
        tcr_column; rewrite E1, E2; reflexivity.
  - split; (split; [intros H; split; trivial; intros -> | tauto]);
      unfold cross_library, own_library, wnt_only_column, wnt_column,
        tcr_column; rewrite E1, E2; reflexivity.
Qed.

Lemma loop_entries cs r c v : forall st,
  (In (r, c, Some v) (entries (fst (fold_left opposite_library_step cs st))) <->
   In (r, c, Some v) (entries (fst st)) /\
   (In c cs -> cross_library r c = false)) /\
  (In (r, c, Some v) (entries (snd (fold_left opposite_library_step cs st))) <->
   In (r, c, Some v) (entries (snd st)) /\
   (In c cs -> own_library r c = false)).
Proof.
  induction cs as [|col cs IH]; intros st; simpl; [tauto|].
  destruct (IH (opposite_library_step st col)) as [H1 H2].
  destruct (step_entries st col r c v) as [S1 S2].
  rewrite H1, H2, S1, S2. split; split.
  - intros [[H Hc] Hcs]. split; trivial. intros [<-|Hin]; auto.
  - intros [H Hc]. repeat split; trivial; auto.
  - intros [[H Hc] Hcs]. split; trivial. intros [<-|Hin]; auto.
  - intros [H Hc]. repeat split; trivial; auto.
Qed.

Lemma isin_others (idx fo : list string) r :
  In r idx ->
  isin r (filter (fun r0 => negb (isin r0 fo))
                 (filter (fun r0 => contains "Essential" r0 || contains "CTRL" r0)
                         idx))
  = is_control r && negb (isin r fo).
Proof.
  intros Hin. unfold is_control.
  destruct (_ && _) eqn:E.
  - apply andb_true_iff in E. destruct E as [E1 E2].
    apply isin_true. apply filter_In. split; trivial.
    apply filter_In. now split.
  - apply isin_false. intros H. apply filter_In in H. destruct H as [H H2].
    apply filter_In in H. destruct H as [_ H1]. rewrite H1, H2 in E.
    discriminate.
Qed.

(** The values of the two frames of a call, in terms of the input. *)
Lemma frames_entries df fo r c v :
  (In (r, c, Some v) (entries (working df fo)) <->
   In (r, c, Some v) (entries df) /\
   isin r (effective_filter_out fo) = false /\
   c <> "plasmid_pool_ESS"%string /\
   cross_library r c = false) /\
  (In (r, c, Some v) (entries (reference df fo)) <->
   In (r, c, Some v) (entries df) /\
   (is_control r = true -> isin r (effective_filter_out fo) = true) /\
   c <> "plasmid_pool_ESS"%string /\
   own_library r c = false).
Proof.
  unfold working, reference, filter_frames, effective_filter_out.
  set (fo' := match fo with None => default_filter_out | Some l => l end).
  match goal with
  | |- context [fold_left opposite_library_step ?cs ?st0] =>
      destruct (loop_shape cs st0) as (_ & _ & C1 & C2);
      destruct (loop_entries cs r c v st0) as [L1 L2];
      set (st := fold_left opposite_library_step cs st0) in *
  end.
  simpl in C1, C2, L1, L2.
  rewrite columns_select_rows in C1, L1, L2.
  rewrite columns_set_rows_nan in C2.
  rewrite entries_select_rows in L1. rewrite entries_set_rows_nan in L2.
  assert (Hcol : In (r, c, Some v) (entries df) -> In c (columns df))
    by apply entries_column.
  assert (Hrow : In (r, c, Some v) (entries df) ->
                 isin r (filter (fun r0 => negb (isin r0 fo'))
                           (filter (fun r0 => contains "Essential" r0
                                              || contains "CTRL" r0)
                                   (index df)))
                 = is_control r && negb (isin r fo')).
  { intros H. apply isin_others. now apply entries_row in H. }
  assert (Hctl : forall b1 b2 : bool,
             b1 && negb b2 = false <-> (b1 = true -> b2 = true))
    by (intros [|] [|]; simpl; intuition congruence).
  destruct (isin "plasmid_pool_ESS" (columns (fst st))) eqn:E; simpl.
  - rewrite !entries_drop_column, L1, L2. split; split.
    + intros [[[H Hk] Hc] Hne]. apply negb_true_iff in Hk.
      repeat split; auto.
    + intros (H & Hk & Hne & Hc). repeat split; trivial.
      now apply negb_true_iff.
    + intros [[[H Hk] Hc] Hne]. rewrite (Hrow H), Hctl in Hk.
      repeat split; auto.
    + intros (H & Hk & Hne & Hc). repeat split; trivial.
      rewrite (Hrow H). now apply Hctl.
  - rewrite C1 in E. apply isin_false in E. rewrite L1, L2. split; split.
    + intros [[H Hk] Hc]. apply negb_true_iff in Hk.
      repeat split; auto. intros ->. apply E. now apply Hcol.
    + intros (H & Hk & Hne & Hc). repeat split; trivial.
      now apply negb_true_iff.
    + intros [[H Hk] Hc]. rewrite (Hrow H), Hctl in Hk.
      repeat split; auto. intros ->. apply E. now apply Hcol.
    + intros (H & Hk & Hne & Hc). repeat split; trivial.
      rewrite (Hrow H). now apply Hctl.
Qed.

End FilterSurvivors.

Section FilterSurvivorTheorems.

Local Open Scope Q_scope.

Lemma filter_gRNAs_returned df fo out :
  filter_gRNAs df fo = Returned out ->
  exists bound,
    percentile (noise df fo) 95 = Returned bound /\
    out = where_gt bound (working df fo).
Proof.
  unfold filter_gRNAs, noise_threshold.
  fold (reference df fo). fold (noise df fo). fold (working df fo).
  destruct (percentile (noise df fo) 95) as [bound|]; simpl; [|discriminate].
  intros H. inversion H. now exists bound.
Qed.

Lemma Qle_bool_false_lt x bound : Qle_bool x bound = false <-> bound < x.
Proof.
  split.
  - intros H. apply Qnot_le_lt. intros Hle. apply Qle_bool_iff in Hle.
    congruence.
  - intros H. destruct (Qle_bool x bound) eqn:E; trivial.
    apply Qle_bool_iff in E. exfalso. apply (Qlt_not_le _ _ H E).
Qed.

(** A value is in the frame returned exactly when it is in the input, its
    guide is not in the filter-out list, its column is not
    "plasmid_pool_ESS", its guide is not of the sub-library opposite to the
    column, and it is above the threshold; it is then the input value. *)
Theorem filter_gRNAs_survivors df fo out :
  filter_gRNAs df fo = Returned out ->
  exists bound,
    percentile (noise df fo) 95 = Returned bound /\
    forall r c v,
      In (r, c, Some v) (entries out) <->
      In (r, c, Some v) (entries df) /\
      isin r (effective_filter_out fo) = false /\
      c <> "plasmid_pool_ESS"%string /\
      cross_library r c = false /\
      bound < v.
Proof.
  intros H. destruct (filter_gRNAs_returned df fo out H) as [bound [Hp ->]].
  exists bound. split; trivial. intros r c v.
  rewrite entries_where_gt, Qle_bool_false_lt.
  rewrite (proj1 (frames_entries df fo r c v)). tauto.
Qed.

Lemma filter_gRNAs_survivors_witness :
  filter_gRNAs noise_example (Some ["CTRL001"%string])
  = Returned (mkDataFrame ["Essential_X_1"; "Tcr_a"; "Tcr_b"]%string
                          [("S_TCR"%string, [Some 500; None; Some 51])]) /\
  exists bound,
    percentile (noise noise_example (Some ["CTRL001"%string])) 95
    = Returned bound.
Proof.
  assert (H : filter_gRNAs noise_example (Some ["CTRL001"%string])
              = Returned (mkDataFrame ["Essential_X_1"; "Tcr_a"; "Tcr_b"]%string
                            [("S_TCR"%string, [Some 500; None; Some 51])]))
    by (vm_compute; reflexivity).
  split; [exact H|].
  destruct (filter_gRNAs_survivors _ _ _ H) as [bound [Hb _]].
  now exists bound.
Defined.

(** The rows of the frame returned are the rows of the input whose guide
    is not in the filter-out list, in the order of the input: a row stays
    even when the filter leaves it no value. *)
Theorem filter_gRNAs_rows df fo out :
  filter_gRNAs df fo = Returned out ->
  index out
  = filter (fun r => negb (isin r (effective_filter_out fo))) (index df).
Proof.
  intros H. destruct (filter_gRNAs_returned df fo out H) as [bound [_ ->]].
  unfold working, filter_frames, effective_filter_out. simpl.
  match goal with
  | |- context [fold_left opposite_library_step ?cs ?st0] =>
      destruct (loop_shape cs st0) as (I1 & _);
      set (st := fold_left opposite_library_step cs st0) in *
  end.
  destruct (isin "plasmid_pool_ESS" (columns (fst st))); simpl; exact I1.
Qed.

Lemma filter_gRNAs_rows_witness :
  filter_gRNAs both_names None
  = Returned (mkDataFrame ["Tcr_1"; "Wnt_1"]%string
                          [("TCR_WNT"%string, [Some 9; None])]) /\
  index (mkDataFrame ["Tcr_1"; "Wnt_1"]%string
                     [("TCR_WNT"%string, [Some 9; @None Q])])
  = filter (fun r => negb (isin r (effective_filter_out None)))
           (index both_names).
Proof.
  assert (H : filter_gRNAs both_names None
              = Returned (mkDataFrame ["Tcr_1"; "Wnt_1"]%string
                            [("TCR_WNT"%string, [Some 9; None])]))
    by (vm_compute; reflexivity).
  split; [exact H|]. exact (filter_gRNAs_rows _ _ _ H).
Defined.

Lemma in_notnan (l : list cell) x : In x (notnan l) <-> In (Some x) l.
Proof.
  induction l as [|[y|] l IH]; simpl; [tauto| |].
  - rewrite IH. split; intros [H|H]; auto; [left; congruence|].
    left. now inversion H.
  - rewrite IH. split; [auto|]. intros [H|H]; [discriminate | trivial].
Qed.

Lemma in_combine_nth (A B : Type) (d : A) (d' : B) (l : list A) :
  forall (l' : list B) i,
    (i < length l)%nat -> (i < length l')%nat ->
    In (nth i l d, nth i l' d') (combine l l').
Proof.
  induction l as [|a l IH]; intros [|b l'] i Hi Hi'; simpl in *; try lia.
  destruct i as [|i]; [now left|]. right. apply IH; lia.
Qed.

(** A value of [df.values] is the value of a labelled cell. *)
Lemma in_values_entries (df : DataFrame cell) x :
  In (Some x) (concat (values None df)) ->
  exists r c, In (r, c, Some x) (entries df).
Proof.
  intros H. apply in_concat in H. destruct H as [row [Hrow Hx]].
  unfold values in Hrow. apply in_map_iff in Hrow.
  destruct Hrow as [i [<- Hi]]. apply in_seq in Hi.
  apply in_map_iff in Hx. destruct Hx as [[c col] [Hx Hcol]]. simpl in Hx.
  exists (nth i (index df) ""%string), c. apply in_entries.
  exists col. split; trivial. rewrite <- Hx.
  apply in_combine_nth; [exact (proj2 Hi)|].
  destruct (Nat.lt_ge_cases i (length col)) as [Hlt|Hge]; trivial.
  rewrite nth_overflow in Hx by exact Hge. discriminate.
Qed.

(** The noise is measured on false assignments only: every value that
    enters the percentile is a count of the input, outside the column
    "plasmid_pool_ESS", of a guide that is either not a control or in the
    filter-out list, and that is not of the sub-library of its column. *)
Theorem noise_is_false_assignments df fo x :
  In x (noise df fo) ->
  exists r c,
    In (r, c, Some x) (entries df) /\
    (is_control r = true -> isin r (effective_filter_out fo) = true) /\
    c <> "plasmid_pool_ESS"%string /\
    own_library r c = false.
Proof.
  unfold noise. intros H. apply in_notnan in H.
  apply in_values_entries in H. destruct H as [r [c H]].
  exists r, c. now apply (proj2 (frames_entries df fo r c x)).
Qed.

Lemma noise_is_false_assignments_witness :
  In 50 (noise noise_example (Some ["CTRL001"%string])) /\
  exists r c,
    In (r, c, Some 50) (entries noise_example) /\
    (is_control r = true -> isin r ["CTRL001"%string] = true) /\
    c <> "plasmid_pool_ESS"%string /\
    own_library r c = false.
Proof.
  assert (H : In 50 (noise noise_example (Some ["CTRL001"%string])))
    by (vm_compute; now left).
  split; [exact H|].
  exact (noise_is_false_assignments noise_example (Some ["CTRL001"%string])
           50 H).
Defined.

End FilterSurvivorTheorems.

(** ** The percentile and the threshold *)

Section PercentileBounds.

Local Open Scope Q_scope.

Lemma in_insert v l x : In x (insert v l) <-> x = v \/ In x l.
Proof.
  induction l as [|w l IH]; simpl; [intuition|].
  destruct (Qle_bool v w); simpl; [intuition|]. rewrite IH. intuition.
Qed.

Lemma in_sort l x : In x (sort l) <-> In x l.
Proof.
  induction l as [|v l IH]; simpl; [tauto|].
  rewrite in_insert, IH. intuition.
Qed.

Lemma length_insert v l : length (insert v l) = S (length l).
Proof.
  induction l as [|w l IH]; simpl; trivial.
  destruct (Qle_bool v w); simpl; congruence.
Qed.

Lemma length_sort l : length (sort l) = length l.
Proof.
  induction l as [|v l IH]; simpl; trivial. now rewrite length_insert, IH.
Qed.

(** The percentile of a non-empty array lies between any two bounds of its
    values, for every rank [q] from 0 to 100. *)
Theorem percentile_between a q lo hi :
  a <> [] -> 0 <= q -> q <= 100 ->
  (forall x, In x a -> lo <= x /\ x <= hi) ->
  exists p, percentile a q = Returned p /\ lo <= p /\ p <= hi.
Proof.
  intros Ha Hq0 Hq1 Hb. destruct a as [|x0 a0]; [congruence|].
  set (a := x0 :: a0) in *. unfold percentile. fold a.
  set (n := Z.of_nat (length a)).
  assert (Ht0 : 0 <= q / 100)
    by (unfold Qdiv; change (/ 100) with (1 # 100); Lqa.lra).
  assert (Ht1 : q / 100 <= 1)
    by (unfold Qdiv; change (/ 100) with (1 # 100); Lqa.lra).
  set (t := q / 100) in *.
  set (h := (inject_Z n - 1) * t).
  set (fl := Qfloor h).
  assert (Hn : (1 <= n)%Z) by (unfold n, a; simpl length; lia).
  assert (Hn' : 1 <= inject_Z n).
  { change 1 with (inject_Z 1). now rewrite <- Zle_Qle. }
  assert (Hh0 : 0 <= h) by (unfold h; Lqa.nra).
  assert (Hh1 : h <= inject_Z (n - 1)).
  { unfold Z.sub. rewrite inject_Z_plus. unfold h.
    change (inject_Z (- (1))) with (- (1)). Lqa.nra. }
  assert (Hf0 : (0 <= fl)%Z).
  { change 0%Z with (Qfloor 0). now apply Qfloor_resp_le. }
  assert (Hf1 : (fl <= n - 1)%Z).
  { rewrite <- (Qfloor_Z (n - 1)). now apply Qfloor_resp_le. }
  assert (Hg0 : 0 <= h - inject_Z fl).
  { pose proof (Qfloor_le h). fold fl in H. Lqa.lra. }
  assert (Hg1 : h - inject_Z fl <= 1).
  { pose proof (Qlt_floor h) as H. fold fl in H.
    rewrite inject_Z_plus in H. change (inject_Z 1) with 1 in H. Lqa.lra. }
  assert (Hnth : forall k : BinNums.Z, (0 <= k <= n - 1)%Z ->
                   lo <= nth (Z.to_nat k) (sort a) 0 /\
                   nth (Z.to_nat k) (sort a) 0 <= hi).
  { intros k Hk. apply Hb. apply in_sort. apply nth_In.
    rewrite length_sort. unfold n in Hk. lia. }
  destruct (Hnth fl (conj Hf0 Hf1)) as [B0 B1].
  destruct (Hnth (Z.min (fl + 1) (n - 1))) as [A0 A1]; [lia|].
  eexists. split; [reflexivity|]. rewrite Qred_correct.
  set (g := h - inject_Z fl) in *.
  set (below := nth (Z.to_nat fl) (sort a) 0) in *.
  set (top := nth (Z.to_nat (Z.min (fl + 1) (n - 1))) (sort a) 0) in *.
  split; Lqa.nra.
Qed.

Lemma percentile_between_witness :
  [50; 7; 40; 8] <> [] /\ 0 <= 95 /\ 95 <= 100 /\
  exists p, percentile [50; 7; 40; 8] 95 = Returned p /\ 7 <= p /\ p <= 50.
Proof.
  split; [discriminate|]. split; [discriminate|]. split; [discriminate|].
  apply percentile_between; try discriminate.
  intros x Hx. simpl in Hx.
  repeat (destruct Hx as [<-|Hx]; [split; discriminate|]). contradiction.
Defined.

(** The threshold is within the range of the noise: a value of the working
    frame above every noise value is kept, and one at or below every noise
    value is removed. *)
Theorem filter_gRNAs_threshold_range df fo out lo hi :
  filter_gRNAs df fo = Returned out ->
  (forall x, In x (noise df fo) -> lo <= x /\ x <= hi) ->
  forall r c v,
    In (r, c, Some v) (entries (working df fo)) ->
    (hi < v -> In (r, c, Some v) (entries out)) /\
    (v <= lo -> ~ In (r, c, Some v) (entries out)).
Proof.
  intros H Hb r c v Hin.
  destruct (filter_gRNAs_returned df fo out H) as [bound [Hp ->]].
  assert (Hne : noise df fo <> []).
  { intros E. rewrite E in Hp. discriminate. }
  destruct (percentile_between (noise df fo) 95 lo hi Hne) as [p [Hp' [P0 P1]]];
    trivial; try discriminate.
  rewrite Hp in Hp'. inversion Hp'; subst p.
  rewrite entries_where_gt, Qle_bool_false_lt. split.
  - intros Hv. split; trivial. Lqa.lra.
  - intros Hv [_ Hlt]. Lqa.lra.
Qed.

Lemma filter_gRNAs_threshold_range_witness :
  filter_gRNAs noise_example (Some ["CTRL001"%string])
  = Returned (mkDataFrame ["Essential_X_1"; "Tcr_a"; "Tcr_b"]%string
                          [("S_TCR"%string, [Some 500; None; Some 51])]) /\
  (forall x, In x (noise noise_example (Some ["CTRL001"%string])) ->
             50 <= x /\ x <= 50) /\
  In ("Tcr_b"%string, "S_TCR"%string, Some 51)
     (entries (mkDataFrame ["Essential_X_1"; "Tcr_a"; "Tcr_b"]%string
                           [("S_TCR"%string, [Some 500; None; Some 51])])).
Proof.
  assert (H : filter_gRNAs noise_example (Some ["CTRL001"%string])
              = Returned (mkDataFrame ["Essential_X_1"; "Tcr_a"; "Tcr_b"]%string
                            [("S_TCR"%string, [Some 500; None; Some 51])]))
    by (vm_compute; reflexivity).
  assert (B : forall x, In x (noise noise_example (Some ["CTRL001"%string])) ->
                        50 <= x /\ x <= 50).
  { intros x Hx. vm_compute in Hx. destruct Hx as [<-|[]].
    split; discriminate. }
  split; [exact H|]. split; [exact B|].
  apply (filter_gRNAs_threshold_range _ _ _ 50 50 H B
           "Tcr_b"%string "S_TCR"%string 51).
  - vm_compute. auto.
  - reflexivity.
Defined.

End PercentileBounds.

(** ** Normalizer: depth, range, and the filter before it *)

Section NormalizerMore.

Local Open Scope Q_scope.

Lemma sum_skipna_scale k (c : list cell) :
  sum_skipna (map (scale_cell k) c) == k * sum_skipna c.
Proof.
  unfold sum_skipna. induction c as [|[x|] c IH]; simpl.
  - Lqa.lra.
  - rewrite IH. Lqa.lra.
  - exact IH.
Qed.

Lemma Qltb_true a b : Qltb a b = true <-> a < b.
Proof.
  unfold Qltb. rewrite negb_true_iff. apply Qle_bool_false_lt.
Qed.

Lemma Qeq_bool_scale k x : 0 < k -> Qeq_bool (k * x) 0 = Qeq_bool x 0.
Proof.
  intros Hk. destruct (Qeq_bool x 0) eqn:E.
  - apply Qeq_bool_eq in E. apply Qeq_eq_bool. rewrite E. Lqa.lra.
  - destruct (Qeq_bool (k * x) 0) eqn:E'; trivial.
    apply Qeq_bool_eq in E'. apply Qeq_bool_neq in E. exfalso. apply E.
    Lqa.nra.
Qed.

Lemma Qltb_scale k x : 0 < k -> Qltb 0 (k * x) = Qltb 0 x.
Proof.
  intros Hk. destruct (Qltb 0 x) eqn:E.
  - apply Qltb_true in E. apply Qltb_true. Lqa.nra.
  - destruct (Qltb 0 (k * x)) eqn:E'; trivial.
    apply Qltb_true in E'. assert (H : 0 < x) by Lqa.nra.
    apply Qltb_true in H. congruence.
Qed.

Lemma Forall2_map_same (A B : Type) (P : B -> B -> Prop) (f g : A -> B) l :
  (forall x, In x l -> P (f x) (g x)) -> Forall2 P (map f l) (map g l).
Proof.
  induction l as [|x l IH]; intros H; simpl; constructor.
  - apply H. now left.
  - apply IH. intros y Hy. apply H. now right.
Qed.

(** Normalisation removes the sequencing depth: a column and the same
    column with every count multiplied by [k > 0] are normalised to the
    same numbers. *)
Theorem normalize_column_depth k (c : list cell) :
  0 < k ->
  Forall2 feq (normalize_column (map (scale_cell k) c)) (normalize_column c).
Proof.
  intros Hk. pose proof (sum_skipna_scale k c) as Hs.
  destruct (Qeq_bool (sum_skipna c) 0) eqn:E.
  - apply Qeq_bool_eq in E.
    assert (E' : sum_skipna (map (scale_cell k) c) == 0)
      by (rewrite Hs, E; Lqa.lra).
    rewrite (normalize_column_zero _ E), (normalize_column_zero _ E').
    rewrite map_map. apply Forall2_map_same. intros [x|] _; simpl; trivial.
    rewrite (Qeq_bool_scale k x Hk), (Qltb_scale k x Hk).
    destruct (Qeq_bool x 0); simpl; trivial. now destruct (Qltb 0 x).
  - apply Qeq_bool_neq in E.
    assert (E' : ~ sum_skipna (map (scale_cell k) c) == 0).
    { rewrite Hs. intros H. apply E. Lqa.nra. }
    rewrite (normalize_column_nonzero _ E), (normalize_column_nonzero _ E').
    rewrite map_map. apply Forall2_map_same. intros [x|] _; simpl; trivial.
    rewrite Hs. field. split; trivial. Lqa.lra.
Qed.

Lemma normalize_column_depth_witness :
  0 < 3 /\
  Forall2 feq
    (normalize_column (map (scale_cell 3) [Some 500; None; Some 1500]))
    (normalize_column [Some 500; None; Some 1500]).
Proof.
  split; [reflexivity|]. apply normalize_column_depth. reflexivity.
Defined.

Lemma sum_skipna_bounds (c : list cell) :
  (forall v, In (Some v) c -> 0 <= v) ->
  0 <= sum_skipna c /\ forall x, In (Some x) c -> x <= sum_skipna c.
Proof.
  unfold sum_skipna. induction c as [|[y|] c IH]; intros H; simpl.
  - split; [Lqa.lra | contradiction].
  - destruct IH as [I0 I1]; [intros v Hv; apply H; now right|].
    assert (Hy : 0 <= y) by (apply H; now left). split; [Lqa.lra|].
    intros x [Hx|Hx]; [inversion Hx; subst; Lqa.lra|].
    specialize (I1 x Hx). Lqa.lra.
  - destruct IH as [I0 I1]; [intros v Hv; apply H; now right|].
    split; trivial. intros x [Hx|Hx]; [discriminate | auto].
Qed.

(** A normalised count is a share of 10000: in a column of non-negative
    counts with a positive total, every normalised value is between 0 and
    10000. *)
Theorem normalize_column_range (c : list cell) i x :
  (forall v, In (Some v) c -> 0 <= v) ->
  0 < sum_skipna c ->
  nth_error c i = Some (Some x) ->
  exists y, nth_error (normalize_column c) i = Some (Fin y) /\
            0 <= y /\ y <= 10000.
Proof.
  intros Hpos Hs Hi.
  assert (Hn : ~ sum_skipna c == 0) by (intros E; rewrite E in Hs; Lqa.lra).
  rewrite (normalize_column_nonzero c Hn), nth_error_map, Hi. simpl.
  eexists. split; [reflexivity|].
  apply nth_error_In in Hi. destruct (sum_skipna_bounds c Hpos) as [_ Hle].
  specialize (Hle x Hi). specialize (Hpos x Hi).
  assert (H0 : 0 <= x / sum_skipna c).
  { apply Qle_shift_div_l; trivial. Lqa.lra. }
  assert (H1 : x / sum_skipna c <= 1).
  { apply Qle_shift_div_r; trivial. Lqa.lra. }
  split; Lqa.lra.
Qed.

Lemma normalize_column_range_witness :
  0 < sum_skipna [Some 500; None; Some 1500] /\
  exists y,
    nth_error (normalize_column [Some 500; None; Some 1500]) 2 = Some (Fin y) /\
    0 <= y /\ y <= 10000.
Proof.
  split; [reflexivity|].
  apply (normalize_column_range [Some 500; None; Some 1500] 2 1500);
    try reflexivity.
  intros v Hv. simpl in Hv.
  repeat (destruct Hv as [Hv|Hv]; [inversion Hv; subst; discriminate|]).
  contradiction.
Defined.

Lemma list_upper_bound (a : list Q) : exists hi, forall x, In x a -> x <= hi.
Proof.
  induction a as [|y a [hi IH]]; [exists 0; contradiction|].
  destruct (Qlt_le_dec hi y) as [H|H].
  - exists y. intros x [<-|Hx]; [Lqa.lra|]. specialize (IH x Hx). Lqa.lra.
  - exists hi. intros x [<-|Hx]; auto.
Qed.

Lemma sum_skipna_positive (c : list cell) :
  (forall v, In (Some v) c -> 0 < v) -> notnan c <> [] -> 0 < sum_skipna c.
Proof.
  unfold sum_skipna. induction c as [|[y|] c IH]; intros H Hne; simpl in *.
  - congruence.
  - assert (Hy : 0 < y) by (apply H; now left).
    destruct (sum_skipna_bounds c) as [Hc _].
    { intros v Hv. apply Qlt_le_weak. apply H. now right. }
    unfold sum_skipna in Hc. Lqa.lra.
  - apply IH; trivial. intros v Hv. apply H. now right.
Qed.

Lemma normalize_column_all_nan (c : list cell) :
  notnan c = [] -> Forall (fun v => v = NaN) (normalize_column c).
Proof.
  intros H. unfold normalize_column. apply Forall_forall. intros v Hv.
  apply in_map_iff in Hv. destruct Hv as [[x|] [<- Hin]]; [|reflexivity].
  apply in_notnan in Hin. rewrite H in Hin. contradiction.
Qed.

(** The filter and the normalisation together, as the script runs them on
    a frame of counts (no negative value): every column of the filtered
    frame either has no value left, and is normalised to NaN throughout,
    or has a positive total and is normalised to a column that sums to
    10000. *)
Theorem filter_then_normalize df fo out j name c :
  (forall r k v, In (r, k, Some v) (entries df) -> 0 <= v) ->
  filter_gRNAs df fo = Returned out ->
  nth_error (cols out) j = Some (name, c) ->
  (notnan c = [] /\ Forall (fun v => v = NaN) (normalize_column c)) \/
  (0 < sum_skipna c /\
   exists t, fsum_skipna (normalize_column c) = Fin t /\ t == 10000).
Proof.
  intros Hpos H Hj.
  destruct (filter_gRNAs_returned df fo out H) as [bound [Hp ->]].
  assert (Hne : noise df fo <> []).
  { intros E. rewrite E in Hp. discriminate. }
  assert (Hnoise : forall x, In x (noise df fo) -> 0 <= x).
  { intros x Hx. unfold noise in Hx. apply in_notnan in Hx.
    apply in_values_entries in Hx. destruct Hx as [r [k Hx]].
    apply (proj2 (frames_entries df fo r k x)) in Hx.
    now apply (Hpos r k x). }
  destruct (list_upper_bound (noise df fo)) as [hi Hhi].
  destruct (percentile_between (noise df fo) 95 0 hi Hne) as [p [Hp' [P0 _]]];
    try discriminate.
  { intros x Hx. split; auto. }
  rewrite Hp in Hp'. inversion Hp'; subst p.
  rewrite where_gt_cols, nth_error_map in Hj.
  destruct (nth_error (cols (working df fo)) j) as [[n0 c0]|]; [|discriminate].
  simpl in Hj. inversion Hj; subst; clear Hj.
  assert (Hc : forall v, In (Some v) (map (above bound) c0) -> 0 < v).
  { intros v Hv. apply in_map_iff in Hv. destruct Hv as [[x|] [Hx _]];
      simpl in Hx; [|discriminate].
    destruct (Qle_bool x bound) eqn:E; inversion Hx; subst.
    apply Qle_bool_false_lt in E. Lqa.lra. }
  destruct (notnan (map (above bound) c0)) eqn:E.
  - left. split; trivial. now apply normalize_column_all_nan.
  - right. assert (Hs : 0 < sum_skipna (map (above bound) c0)).
    { apply sum_skipna_positive; trivial. rewrite E. discriminate. }
    split; trivial.
    assert (Hn : ~ sum_skipna (map (above bound) c0) == 0)
      by (intros Z0; rewrite Z0 in Hs; Lqa.lra).
    rewrite (normalize_column_nonzero _ Hn).
    destruct (fsum_rescaled _ Hn (map (above bound) c0)) as [t [Ht Heq]].
    exists t. split; trivial. rewrite Heq. now field.
Qed.

Lemma filter_then_normalize_witness :
  filter_gRNAs noise_example (Some ["CTRL001"%string])
  = Returned (mkDataFrame ["Essential_X_1"; "Tcr_a"; "Tcr_b"]%string
                          [("S_TCR"%string, [Some 500; None; Some 51])]) /\
  ((notnan [Some 500; None; Some 51] = [] /\
    Forall (fun v => v = NaN) (normalize_column [Some 500; None; Some 51])) \/
   (0 < sum_skipna [Some 500; None; Some 51] /\
    exists t, fsum_skipna (normalize_column [Some 500; None; Some 51]) = Fin t /\
              t == 10000)).
Proof.
  assert (H : filter_gRNAs noise_example (Some ["CTRL001"%string])
              = Returned (mkDataFrame ["Essential_X_1"; "Tcr_a"; "Tcr_b"]%string
                            [("S_TCR"%string, [Some 500; None; Some 51])]))
    by (vm_compute; reflexivity).
  split; [exact H|].
  refine (filter_then_normalize noise_example (Some ["CTRL001"%string]) _
            0%nat "S_TCR"%string [Some 500; None; Some 51] _ H eq_refl).
  intros r k v Hv. vm_compute in Hv.
  repeat (destruct Hv as [Hv|Hv]; [inversion Hv; subst; discriminate|]).
  contradiction.
Defined.

End NormalizerMore.

(** ** Sensitivity scorer: bounds and invariances *)

Section ScorerMore.

Local Open Scope R_scope.

Lemma np_std_nonneg (l : list R) : 0 <= np_std l.
Proof. unfold np_std. apply sqrt_pos. Qed.

Lemma np_std_affine_abs (a b : R) (l : list R) :
  l <> [] -> np_std (map (fun x => a * x + b) l) = Rabs a * np_std l.
Proof.
  intros Hl. unfold np_std.
  rewrite (sum_sq_dev_affine a b l Hl), length_map.
  replace (a * a * sum_sq_dev l / INR (length l))
    with (Rsqr a * (sum_sq_dev l / INR (length l)))
    by (unfold Rdiv, Rsqr; ring).
  rewrite sqrt_mult_alt by apply Rle_0_sqr. now rewrite sqrt_Rsqr_abs.
Qed.

Lemma Z_affine_abs (a b : R) (pos neg : list R) :
  a <> 0 -> pos <> [] -> neg <> [] ->
  Z (map (fun x => a * x + b) pos) (map (fun x => a * x + b) neg) = Z pos neg.
Proof.
  intros Ha Hp Hn. unfold Z.
  rewrite !np_std_affine_abs, !mean_affine by trivial.
  replace (a * mean pos + b - (a * mean neg + b))
    with (a * (mean pos - mean neg)) by ring.
  rewrite Rabs_mult. pose proof (Rabs_pos_lt a Ha) as Habs.
  unfold Rdiv. rewrite Rinv_mult.
  replace (3 * (Rabs a * np_std pos + Rabs a * np_std neg)
           * (/ Rabs a * / Rabs (mean pos - mean neg)))
    with (3 * (np_std pos + np_std neg) * (Rabs a * / Rabs a)
          * / Rabs (mean pos - mean neg)) by ring.
  rewrite Rinv_r by lra. now rewrite Rmult_1_r.
Qed.





Lemma Rsum_permutation (l l' : list R) :
  Permutation l l' -> Rsum l = Rsum l'.
Proof.
  unfold Rsum. induction 1; simpl; lra.
Qed.

Lemma mean_permutation (l l' : list R) :
  Permutation l l' -> mean l = mean l'.
Proof.
  intros H. unfold mean.
  now rewrite (Rsum_permutation l l' H), (Permutation_length H).
Qed.

Lemma sum_sq_dev_permutation (l l' : list R) :
  Permutation l l' -> sum_sq_dev l = sum_sq_dev l'.
Proof.
  intros H. unfold sum_sq_dev. rewrite (mean_permutation l l' H).
  apply Rsum_permutation. now apply Permutation_map.
Qed.

Lemma np_std_permutation (l l' : list R) :
  Permutation l l' -> np_std l = np_std l'.
Proof.
  intros H. unfold np_std.
  now rewrite (sum_sq_dev_permutation l l' H), (Permutation_length H).
Qed.

Lemma pd_std_permutation (l l' : list R) :
  Permutation l l' -> pd_std l = pd_std l'.
Proof.
  intros H. unfold pd_std.
  now rewrite (sum_sq_dev_permutation l l' H), (Permutation_length H).
Qed.

Lemma filter_permutation (A : Type) (f : A -> bool) (l l' : list A) :
  Permutation l l' -> Permutation (filter f l) (filter f l').
Proof.
  induction 1; simpl.
  - constructor.
  - destruct (f x); [now constructor | trivial].
  - destruct (f x), (f y); try apply Permutation_refl. constructor.
  - eapply Permutation_trans; eassumption.
Qed.



End ScorerMore.

(** ** Comparator: ranks, colours and fold-changes *)

Section RankMore.

Local Open Scope R_scope.

Lemma count_values_le_all p l :
  (count_values p l <= count_values (fun _ => true) l)%nat.
Proof.
  induction l as [|c l IH]; [unfold count_values; simpl; lia|].
  rewrite !count_values_cons. destruct c as [w|]; [|lia].
  destruct (p w); lia.
Qed.

Lemma count_disjoint l v :
  (count_values (fun u => Rgtb u v) l + count_values (Reqb v) l
   <= count_values (fun _ => true) l)%nat.
Proof.
  induction l as [|c l IH]; [unfold count_values; simpl; lia|].
  rewrite !count_values_cons. destruct c as [u|]; [|lia].
  destruct (Rgtb u v) eqn:G, (Reqb v u) eqn:E; try lia.
  exfalso. unfold Rgtb, Reqb in *.
  destruct (Rlt_dec v u), (Req_dec_T v u); try discriminate; lra.
Qed.

(** The ranks number the values of the series: a value that is not NaN has
    a rank between 1 and the number of such values, and no two places have
    the same rank. *)
Theorem rank_first_desc_numbers l p q v w :
  nth p l None = Some v -> nth q l None = Some w ->
  exists rp rq,
    rank_at l p = Some rp /\ rank_at l q = Some rq /\
    (1 <= rp <= count_values (fun _ => true) l)%nat /\
    (rp = rq -> p = q).
Proof.
  intros Hp Hq.
  destruct (rank_first_desc_order l p q v w Hp Hq) as (rp & rq & Rp & Rq & O1 & O2).
  destruct (rank_first_desc_order l q p w v Hq Hp) as (rq' & rp' & Rq' & Rp' & O3 & O4).
  rewrite Rp in Rp'. rewrite Rq in Rq'. inversion Rp'; inversion Rq'; subst.
  exists rp', rq'. split; trivial. split; trivial. split.
  - rewrite (rank_at_value l p v Hp) in Rp. inversion Rp.
    pose proof (count_disjoint l v).
    pose proof (nth_value_in_range l p v Hp) as Hlen.
    pose proof (count_firstn_lt (Reqb v) l p (length l) v Hlen Hp
                  (Reqb_refl v)) as Hf.
    rewrite firstn_all in Hf. lia.
  - intros E. destruct (Rtotal_order v w) as [H|[H|H]].
    + specialize (O3 H). lia.
    + destruct (Nat.lt_trichotomy p q) as [L|[L|L]]; trivial.
      * specialize (O2 H L). lia.
      * symmetry in H. specialize (O4 H L). lia.
    + specialize (O1 H). lia.
Qed.

Lemma rank_first_desc_numbers_witness :
  nth 0 scenario_fc None = Some 2 /\
  nth 2 scenario_fc None = Some (1 / 2) /\
  exists rp rq,
    rank_at scenario_fc 0 = Some rp /\
    rank_at scenario_fc 2 = Some rq /\
    (1 <= rp <= count_values (fun _ => true) scenario_fc)%nat /\
    (rp = rq -> 0%nat = 2%nat).
Proof.
  split; [reflexivity|]. split; [reflexivity|].
  apply (rank_first_desc_numbers scenario_fc 0%nat 2%nat 2 (1 / 2));
    reflexivity.
Defined.

Lemma count_values_permutation p l l' :
  Permutation l l' -> count_values p l = count_values p l'.
Proof.
  intros H. unfold count_values. apply Permutation_length.
  now apply filter_permutation.
Qed.

Lemma count_firstn_le f l p :
  (count_values f (firstn p l) <= count_values f l)%nat.
Proof.
  revert p. induction l as [|c l IH]; intros [|p]; simpl;
    try (unfold count_values; simpl; lia).
  rewrite !count_values_cons. specialize (IH p). lia.
Qed.

(** The shuffle does not move a guide without ties: a value that occurs
    once in the series has the same rank in every order of the series,
    one more than the number of larger values. *)
Theorem rank_without_ties l l' p p' v :
  Permutation l l' ->
  nth p l None = Some v -> nth p' l' None = Some v ->
  count_values (Reqb v) l = 1%nat ->
  rank_at l p = Some (1 + count_values (fun w => Rgtb w v) l)%nat /\
  rank_at l' p' = rank_at l p.
Proof.
  intros Hperm Hp Hp' H1.
  assert (E : forall m k, nth k m None = Some v ->
                count_values (Reqb v) m = 1%nat ->
                rank_at m k
                = Some (1 + count_values (fun w => Rgtb w v) m)%nat).
  { intros m k Hk Hm. rewrite (rank_at_value m k v Hk).
    pose proof (nth_value_in_range m k v Hk) as Hlen.
    pose proof (count_firstn_lt (Reqb v) m k (length m) v Hlen Hk
                  (Reqb_refl v)) as Hf.
    rewrite firstn_all in Hf. f_equal. lia. }
  split; [now apply E|].
  rewrite (E l p Hp H1), (E l' p' Hp').
  - now rewrite (count_values_permutation _ l l' Hperm).
  - now rewrite <- (count_values_permutation _ l l' Hperm).
Qed.

Lemma rank_without_ties_witness :
  Permutation scenario_fc (rev scenario_fc) /\
  nth 0 scenario_fc None = Some 2 /\
  nth 2 (rev scenario_fc) None = Some 2 /\
  rank_at (rev scenario_fc) 2 = rank_at scenario_fc 0.
Proof.
  assert (P : Permutation scenario_fc (rev scenario_fc))
    by apply Permutation_rev.
  split; [exact P|]. split; [reflexivity|]. split; [reflexivity|].
  apply (rank_without_ties _ _ 0%nat 2%nat 2 P); try reflexivity.
  unfold count_values, Reqb, scenario_fc. simpl.
  repeat match goal with
         | |- context [Req_dec_T ?a ?b] => destruct (Req_dec_T a b); try lra
         end.
  reflexivity.
Defined.

Lemma ln_2_pos : 0 < ln 2.
Proof. rewrite <- ln_1. apply ln_increasing; lra. Qed.

(** The fold-change of two counts is positive exactly when the screen has
    more than the reference, and zero exactly when they have as much. *)
Theorem fold_change_cell_sign (t r : R) :
  0 <= t -> 0 <= r ->
  exists d,
    fold_change_cell (Some t) (Some r) = Some d /\
    (0 < d <-> r < t) /\ (d = 0 <-> t = r) /\ (d < 0 <-> t < r).
Proof.
  intros Ht Hr. rewrite (fold_change_cell_counts t r Ht Hr).
  eexists. split; [reflexivity|].
  pose proof ln_2_pos as H2. pose proof (Rinv_0_lt_compat _ H2) as Hi.
  replace (ln (1 + t) / ln 2 - ln (1 + r) / ln 2)
    with ((ln (1 + t) - ln (1 + r)) * / ln 2) by (unfold Rdiv; ring).
  assert (M : forall a b, 0 <= a -> a < b -> ln (1 + a) < ln (1 + b))
    by (intros a b Ha Hab; apply ln_increasing; lra).
  destruct (Rtotal_order t r) as [H|[H|H]].
  - specialize (M t r Ht H). repeat split; intros; try lra; nra.
  - subst. replace ((ln (1 + r) - ln (1 + r)) * / ln 2) with 0 by ring.
    repeat split; intros; lra.
  - specialize (M r t Hr H). repeat split; intros; try lra; nra.
Qed.

Lemma fold_change_cell_sign_witness :
  0 <= 3 /\ 0 <= 1 /\
  exists d,
    fold_change_cell (Some 3) (Some 1) = Some d /\
    (0 < d <-> 1 < 3) /\ (d = 0 <-> 3 = 1) /\ (d < 0 <-> 3 < 1).
Proof.
  split; [lra|]. split; [lra|]. apply fold_change_cell_sign; lra.
Defined.


End RankMore.

(** ** Comparator: when the plots raise *)

Section PlotErrors.

Local Open Scope R_scope.

Lemma axis_beyond i : (6 <= i)%nat -> axis i = Raised IndexError.
Proof.
  intros H. unfold axis. destruct (Nat.ltb_spec i 6); [lia | reflexivity].
Qed.

Lemma iterate_beyond (T Out : Type)
  (body : list nat -> nat -> string -> option T -> result (option T * Out))
  perms :
  (forall perm i screen carry,
     (6 <= i)%nat -> exists e, body perm i screen carry = Raised e) ->
  forall screens i carry,
    screens <> [] -> (6 < i + length screens)%nat ->
    exists e, iterate body perms i screens carry = Raised e.
Proof.
  intros Hb. induction screens as [|screen rest IH]; intros i carry Hne Hlen;
    [congruence|].
  simpl. destruct (body (perms i) i screen carry) as [r|e] eqn:E; simpl;
    [|now exists e].
  destruct rest as [|screen' rest'].
  - simpl in Hlen. destruct (Hb (perms i) i screen carry) as [e He]; [lia|].
    congruence.
  - destruct (IH (S i) (fst r)) as [e He]; [discriminate | simpl in *; lia |].
    exists e. now rewrite He.
Qed.

Lemma iterate_first (T Out : Type)
  (body : list nat -> nat -> string -> option T -> result (option T * Out))
  perms screen rest e :
  body (perms 0%nat) 0%nat screen None = Raised e ->
  iterate body perms 0 (screen :: rest) None = Raised e.
Proof. intros H. simpl. now rewrite H. Qed.

(** The plots have six axes: on a screen of more than six samples each of
    the three functions raises. *)
Theorem plots_take_six_samples perms s1 s2 prefix :
  (6 < length (columns s2))%nat ->
  (exists e, gRNA_scatter perms s1 s2 prefix = Raised e) /\
  (exists e, gRNA_maplot perms s1 s2 prefix = Raised e) /\
  (exists e, gRNA_rank perms s1 s2 prefix = Raised e).
Proof.
  intros H.
  assert (Hne : rev (columns s2) <> []).
  { apply rev_not_nil. intros E. rewrite E in H. simpl in H. lia. }
  assert (Hlen : (6 < 0 + length (rev (columns s2)))%nat)
    by (rewrite length_rev; lia).
  split; [|split; [|cut (exists e,
                          iterate (gRNA_rank_iteration s1 s2 prefix) perms 0
                                  (rev (columns s2)) None = Raised e);
                    [intros [e He]; exists e; now apply gRNA_rank_raises|]]];
    apply iterate_beyond; trivial; intros perm i screen carry Hi.
  - unfold gRNA_scatter_iteration.
    destruct (shuffled_branches _ perm s1 s2 prefix screen carry) as [st|e];
      simpl; [|now exists e].
    destruct (colours (index (fst st))) as [cs|e]; simpl; [|now exists e].
    rewrite (axis_beyond i Hi). simpl. now exists IndexError.
  - unfold gRNA_maplot_iteration.
    destruct (shuffled_branches _ perm s1 s2 prefix screen carry) as [st|e];
      simpl; [|now exists e].
    destruct (snd st) as [fc|]; simpl; [|now exists NameError].
    destruct (colours (index (fst st))) as [cs|e]; simpl; [|now exists e].
    rewrite (axis_beyond i Hi). simpl. now exists IndexError.
  - unfold gRNA_rank_iteration.
    destruct (shuffled_branches _ perm s1 s2 prefix screen carry) as [st|e];
      simpl; [|now exists e].
    destruct (snd st) as [fc|]; simpl; [|now exists NameError].
    destruct (colours (index (fst st))) as [cs|e]; simpl; [|now exists e].
    rewrite (axis_beyond i Hi). simpl. now exists IndexError.
Qed.

Lemma plots_take_six_samples_witness :
  (6 < length (columns seven_samples))%nat /\
  exists e, gRNA_rank (fun _ => [0%nat]) tie_s1 seven_samples
                      "original-crop_screen" = Raised e.
Proof.
  assert (H : (6 < length (columns seven_samples))%nat) by (simpl; lia).
  split; [exact H|].
  apply (plots_take_six_samples (fun _ => [0%nat]) tie_s1 seven_samples
           "original-crop_screen" H).
Defined.

(** When the first sample drawn names no sub-library, no branch assigns
    the fold-change and [gRNA_maplot] and [gRNA_rank] raise [NameError]. *)
Theorem plots_unnamed_first_sample perms s1 s2 prefix screen rest :
  existsb (fun n => isin n (columns s1)) (columns s2) = false ->
  rev (columns s2) = screen :: rest ->
  contains "TCR" screen = false ->
  (contains "original" prefix = true /\ contains "WNT" screen = false) \/
  (contains "original" prefix = false /\ contains "plasmid" prefix = false /\
   contains "_4_WNT" screen = false /\ contains "_6_WNT" screen = false) ->
  gRNA_maplot perms s1 s2 prefix = Raised NameError /\
  gRNA_rank perms s1 s2 prefix = Raised NameError.
Proof.
  intros Hj Hrev Ht Hb.
  assert (S : shuffled_branches fold_change (perms 0%nat) s1 s2 prefix
                screen None
              = Returned
                  (iloc (perms 0%nat)
                     {| index := index s1;
                        cols := cols s1 ++
                          map (fun nc =>
                                 (fst nc,
                                  map (fun r => lookup_row r (index s2) (snd nc))
                                      (index s1)))
                              (cols s2) |}, None)).
  { unfold shuffled_branches, join, branches. rewrite Hj. simpl.
    destruct Hb as [[Ho Hw]|(Ho & Hp & H4 & H6)].
    - rewrite Ho, Ht, Hw. reflexivity.
    - rewrite Ho, Hp, Ht, H4, H6. reflexivity. }
  split; [unfold gRNA_maplot | apply gRNA_rank_raises]; rewrite Hrev;
    apply iterate_first;
    unfold gRNA_maplot_iteration, gRNA_rank_iteration; rewrite S; reflexivity.
Qed.

Lemma plots_unnamed_first_sample_witness :
  rev (columns unnamed_sample) = ["S_other"%string] /\
  gRNA_rank (fun _ => [0%nat; 1%nat]) tie_s1 unnamed_sample
            "original-crop_screen" = Raised NameError.
Proof.
  split; [reflexivity|].
  apply (plots_unnamed_first_sample (fun _ => [0%nat; 1%nat]) tie_s1
           unnamed_sample "original-crop_screen" "S_other" []);
    try reflexivity.
  left. split; reflexivity.
Defined.

Lemma getcol_cases (x : frame) label :
  (exists c, getcol x label = Returned c) \/ getcol x label = Raised KeyError.
Proof.
  unfold getcol. destruct (find _ (cols x)); eauto.
Qed.

Lemma getcol_missing (x : frame) label :
  ~ In label (columns x) -> getcol x label = Raised KeyError.
Proof.
  intros H. unfold getcol.
  destruct (find (fun nc => String.eqb (fst nc) label) (cols x)) as [nc|] eqn:E;
    trivial.
  apply find_some in E. destruct E as [Hin Heq].
  apply String.eqb_eq in Heq. exfalso. apply H. unfold columns.
  apply in_map_iff. now exists nc.
Qed.

Lemma columns_iloc perm (x : frame) : columns (iloc perm x) = columns x.
Proof.
  unfold columns, iloc; simpl. rewrite map_map. now apply map_ext.
Qed.

(** When neither frame has the plasmid pool that a TCR sample is compared
    with, the three plots raise [KeyError]. *)
Theorem plots_missing_reference perms s1 s2 prefix screen rest :
  existsb (fun n => isin n (columns s1)) (columns s2) = false ->
  rev (columns s2) = screen :: rest ->
  contains "original" prefix = true ->
  contains "TCR" screen = true ->
  ~ In "plasmid_pool_TCR"%string (columns s1 ++ columns s2) ->
  gRNA_scatter perms s1 s2 prefix = Raised KeyError /\
  gRNA_maplot perms s1 s2 prefix = Raised KeyError /\
  gRNA_rank perms s1 s2 prefix = Raised KeyError.
Proof.
  intros Hj Hrev Ho Ht Hno.
  assert (M : forall (T : Type)
                (measure : frame -> string -> string -> result T),
             (forall x, columns x = (columns s1 ++ columns s2)%list ->
                        measure x screen "plasmid_pool_TCR"%string
                        = Raised KeyError) ->
             shuffled_branches measure (perms 0%nat) s1 s2 prefix screen None
             = Raised KeyError).
  { intros T measure Hm. unfold shuffled_branches, join, branches.
    rewrite Hj. simpl. rewrite Ho, Ht. simpl. unfold against. simpl.
    rewrite Hm; [reflexivity|].
    rewrite columns_select_rows, columns_iloc. unfold columns. simpl.
    rewrite map_app, map_map. reflexivity. }
  assert (G : forall x, columns x = (columns s1 ++ columns s2)%list ->
                        getcol x "plasmid_pool_TCR" = Raised KeyError).
  { intros x Hx. apply getcol_missing. now rewrite Hx. }
  assert (F : forall x, columns x = (columns s1 ++ columns s2)%list ->
                        fold_change x screen "plasmid_pool_TCR"
                        = Raised KeyError).
  { intros x Hx. unfold fold_change.
    destruct (getcol_cases x screen) as [[c Hc]|Hc]; rewrite Hc; simpl;
      trivial.
    now rewrite (G x Hx). }
  split; [|split];
    [unfold gRNA_scatter | unfold gRNA_maplot | apply gRNA_rank_raises];
    rewrite Hrev; apply iterate_first.
  - unfold gRNA_scatter_iteration. rewrite (M _ _ G). reflexivity.
  - unfold gRNA_maplot_iteration. rewrite (M _ _ F). reflexivity.
  - unfold gRNA_rank_iteration. rewrite (M _ _ F). reflexivity.
Qed.

Lemma plots_missing_reference_witness :
  rev (columns tie_s2) = ["S_TCR"%string] /\
  ~ In "plasmid_pool_TCR"%string (columns no_pool ++ columns tie_s2) /\
  gRNA_rank (fun _ => [0%nat; 1%nat]) no_pool tie_s2
            "original-crop_screen" = Raised KeyError.
Proof.
  assert (H : ~ In "plasmid_pool_TCR"%string
                (columns no_pool ++ columns tie_s2)).
  { simpl. intros [E|[E|[]]]; discriminate. }
  split; [reflexivity|]. split; [exact H|].
  apply (plots_missing_reference (fun _ => [0%nat; 1%nat]) no_pool tie_s2
           "original-crop_screen" "S_TCR" []); trivial; reflexivity.
Defined.

(** [s1.join(s2)] refuses frames with a column name in common: the three
    plots raise [ValueError]. *)
Theorem plots_overlapping_columns perms s1 s2 prefix n :
  In n (columns s1) -> In n (columns s2) ->
  gRNA_scatter perms s1 s2 prefix = Raised ValueError /\
  gRNA_maplot perms s1 s2 prefix = Raised ValueError /\
  gRNA_rank perms s1 s2 prefix = Raised ValueError.
Proof.
  intros H1 H2.
  assert (Hj : existsb (fun n0 => isin n0 (columns s1)) (columns s2) = true).
  { apply existsb_exists. exists n. split; trivial. now apply isin_true. }
  assert (S : forall (T : Type) measure perm screen (carry : option T),
             shuffled_branches measure perm s1 s2 prefix screen carry
             = Raised ValueError).
  { intros. unfold shuffled_branches, join. now rewrite Hj. }
  destruct (rev (columns s2)) as [|screen rest] eqn:Hrev.
  { exfalso. assert (E : columns s2 = []).
    { rewrite <- (rev_involutive (columns s2)), Hrev. reflexivity. }
    rewrite E in H2. contradiction. }
  split; [|split];
    [unfold gRNA_scatter | unfold gRNA_maplot | apply gRNA_rank_raises];
    rewrite Hrev; apply iterate_first.
  - unfold gRNA_scatter_iteration. now rewrite S.
  - unfold gRNA_maplot_iteration. now rewrite S.
  - unfold gRNA_rank_iteration. now rewrite S.
Qed.

Lemma plots_overlapping_columns_witness :
  In "S_TCR"%string (columns tie_s2) /\
  gRNA_rank (fun _ => [0%nat; 1%nat]) tie_s2 tie_s2 "original-crop_screen"
  = Raised ValueError.
Proof.
  assert (H : In "S_TCR"%string (columns tie_s2)) by (simpl; now left).
  split; [exact H|].
  apply (plots_overlapping_columns (fun _ => [0%nat; 1%nat]) tie_s2 tie_s2
           "original-crop_screen" "S_TCR" H H).
Defined.

End PlotErrors.

(** ** Comparator: which guides are drawn *)

Section PlottedGuides.

Local Open Scope R_scope.

Variable T : Type.
Variable measure : frame -> string -> string -> result T.
Variable screen : string.

Lemma against_fresh excluded reference st st' :
  against measure excluded reference screen st = Returned st' ->
  index (fst st')
  = filter (fun r => negb (contains excluded r)) (index (fst st)) /\
  fresh measure screen st'.
Proof.
  unfold against. intros H.
  destruct (measure _ screen reference) as [m|e] eqn:E; simpl in H;
    [|discriminate].
  inversion H; subst; clear H. split; [reflexivity|].
  now exists reference, m.
Qed.

Lemma against_free excluded reference st st' :
  against measure excluded reference screen st = Returned st' ->
  free_of excluded (index (fst st')).
Proof.
  intros H. apply against_fresh in H. destruct H as [I _].
  intros r Hr. rewrite I in Hr. apply filter_In in Hr.
  destruct Hr as [_ Hr]. now apply negb_true_iff in Hr.
Qed.

Lemma when_keeps b excluded reference pat st st' :
  when b (against measure excluded reference screen) st = Returned st' ->
  free_of pat (index (fst st)) -> fresh measure screen st ->
  free_of pat (index (fst st')) /\ fresh measure screen st'.
Proof.
  intros H Hfree Hfresh. destruct b; simpl in H.
  - destruct (against_fresh _ _ _ _ H) as [I F]. split; trivial.
    intros r Hr. rewrite I in Hr. apply filter_In in Hr. now apply Hfree.
  - inversion H; subst. now split.
Qed.

(** For a TCR sample the frame after the branches has no "Wnt" guide and
    the quantity is measured on it; for a WNT sample compared with the
    plasmid pool it has no "Tcr" guide. *)
Lemma branches_exclude prefix st st' :
  branches measure prefix screen st = Returned st' ->
  (contains "TCR" screen = true ->
   free_of "Wnt" (index (fst st')) /\ fresh measure screen st') /\
  (contains "original" prefix = true -> contains "WNT" screen = true ->
   free_of "Tcr" (index (fst st')) /\ fresh measure screen st').
Proof.
  unfold branches. intros H.
  destruct (contains "original" prefix) eqn:Ho;
    [|destruct (negb (contains "plasmid" prefix)); [|discriminate]].
  - destruct (when (contains "TCR" screen) _ st) as [st1|] eqn:E1;
      simpl in H; [|discriminate].
    split.
    + intros Ht. rewrite Ht in E1. simpl in E1.
      apply (when_keeps _ _ _ "Wnt" st1 st' H).
      * now apply (against_free _ _ _ _ E1).
      * now apply (against_fresh _ _ _ _ E1).
    + intros _ Hw. rewrite Hw in H. simpl in H. split.
      * now apply (against_free _ _ _ _ H).
      * now apply (against_fresh _ _ _ _ H).
  - destruct (when (contains "TCR" screen) _ st) as [st1|] eqn:E1;
      simpl in H; [|discriminate].
    destruct (when (contains "_4_WNT" screen) _ st1) as [st2|] eqn:E2;
      simpl in H; [|discriminate].
    split; [|discriminate].
    intros Ht. rewrite Ht in E1. simpl in E1.
    apply (when_keeps _ _ _ "Wnt" st2 st' H);
      apply (when_keeps _ _ _ "Wnt" st1 st2 E2).
    + now apply (against_free _ _ _ _ E1).
    + now apply (against_fresh _ _ _ _ E1).
    + now apply (against_free _ _ _ _ E1).
    + now apply (against_fresh _ _ _ _ E1).
Qed.

End PlottedGuides.

Section PlottedGuideTheorems.

Local Open Scope R_scope.

Lemma in_points (X : Type) idx (xs : list X) ys cs pt :
  In pt (points idx xs ys cs) -> In (guide pt) idx.
Proof.
  unfold points. intros H. apply in_map_iff in H.
  destruct H as [[[[g a] o] c] [<- Hin]]. simpl.
  apply in_combine_l in Hin. apply in_combine_l in Hin.
  now apply in_combine_l in Hin.
Qed.

Lemma in_firstn (A : Type) (x : A) n l : In x (firstn n l) -> In x l.
Proof.
  revert n. induction l as [|a l IH]; intros [|n] H; simpl in *; try tauto.
  destruct H as [H|H]; [now left | right; eauto].
Qed.

Lemma rank_guides_in_frame x screen fc g :
  fresh fold_change screen (x, Some fc) ->
  In g (map fst fc) -> In g (index x).
Proof.
  intros (reference & m & Hm & Hs) Hg. simpl in Hm, Hs. inversion Hs; subst.
  rewrite (fold_change_index x screen reference m Hm) in Hg.
  now apply in_firstn in Hg.
Qed.

(** The guides of the other sub-library are not drawn: in an iteration of
    [gRNA_rank] or of [gRNA_scatter] for a TCR sample no point is a guide
    with "Wnt" in its id, and for a WNT sample compared with the plasmid
    pool no point is a guide with "Tcr" in its id. *)
Theorem plots_leave_out_other_library s1 s2 prefix perm i screen :
  contains "TCR" screen = true \/
  (contains "original" prefix = true /\ contains "WNT" screen = true) ->
  (forall carry carry' pts pt,
     gRNA_rank_iteration s1 s2 prefix perm i screen carry
     = Returned (carry', pts) ->
     In pt pts ->
     (contains "TCR" screen = true -> contains "Wnt" (guide pt) = false) /\
     (contains "original" prefix = true -> contains "WNT" screen = true ->
      contains "Tcr" (guide pt) = false)) /\
  (forall carry carry' pts pt,
     gRNA_scatter_iteration s1 s2 prefix perm i screen carry
     = Returned (carry', pts) ->
     In pt pts ->
     (contains "TCR" screen = true -> contains "Wnt" (guide pt) = false) /\
     (contains "original" prefix = true -> contains "WNT" screen = true ->
      contains "Tcr" (guide pt) = false)).
Proof.
  intros _. split; intros carry carry' pts pt H Hpt.
  - unfold gRNA_rank_iteration in H.
    destruct (shuffled_branches fold_change perm s1 s2 prefix screen carry)
      as [[x m]|] eqn:E; simpl in H; [|discriminate].
    destruct m as [fc|]; simpl in H; [|discriminate].
    destruct (colours (index x)) as [cs|]; simpl in H; [|discriminate].
    destruct (axis i); simpl in H; [|discriminate].
    inversion H; subst; clear H. apply in_points in Hpt.
    unfold shuffled_branches in E.
    destruct (join s1 s2) as [j|]; simpl in E; [|discriminate].
    destruct (branches_exclude _ _ _ _ _ _ E) as [B1 B2]. simpl in B1, B2.
    split.
    + intros Ht. destruct (B1 Ht) as [Hfree Hfresh]. apply Hfree.
      now apply (rank_guides_in_frame x screen fc).
    + intros Ho Hw. destruct (B2 Ho Hw) as [Hfree Hfresh]. apply Hfree.
      now apply (rank_guides_in_frame x screen fc).
  - unfold gRNA_scatter_iteration in H.
    destruct (shuffled_branches _ perm s1 s2 prefix screen carry)
      as [[x m]|] eqn:E; simpl in H; [|discriminate].
    destruct (colours (index x)) as [cs|]; simpl in H; [|discriminate].
    destruct (axis i); simpl in H; [|discriminate].
    destruct (getcol x screen) as [t|]; simpl in H; [|discriminate].
    destruct m as [b|]; simpl in H; [|discriminate].
    destruct (same_size t b) as [[]|]; simpl in H; [|discriminate].
    inversion H; subst; clear H. apply in_points in Hpt.
    unfold shuffled_branches in E.
    destruct (join s1 s2) as [j|]; simpl in E; [|discriminate].
    destruct (branches_exclude _ _ _ _ _ _ E) as [B1 B2]. simpl in B1, B2.
    split.
    + intros Ht. destruct (B1 Ht) as [Hfree _]. now apply Hfree.
    + intros Ho Hw. destruct (B2 Ho Hw) as [Hfree _]. now apply Hfree.
Qed.

End PlottedGuideTheorems.

Section PlottedGuideWitnesses.

Local Open Scope R_scope.

(** A TCR sample with a guide of each sub-library, and a guide that only
    the sample has: one point is drawn. *)
Lemma mixed_iteration :
  gRNA_rank_iteration mixed_s1 mixed_s2 "original-crop_screen" [1; 0]%nat 0
                      "S_TCR" None
  = Returned
      (Some [("Tcr_1"%string, Some tie_fc)],
       [ mkPoint "Tcr_1" (Some 1%nat) (Some tie_fc) colorblind2 ]).
Proof.
  cbv -[fold_change_cell Rgtb Reqb IZR tie_fc].
  rewrite (fold_change_cell_counts 3 1) by lra. fold tie_fc.
  rewrite !Rgtb_irrefl. reflexivity.
Qed.

Lemma plots_leave_out_other_library_witness :
  (contains "TCR" "S_TCR" = true \/
   (contains "original" "original-crop_screen" = true /\
    contains "WNT" "S_TCR" = true)) /\
  In "Wnt_1"%string (index mixed_s1) /\
  contains "Wnt" "Tcr_1" = false.
Proof.
  assert (H : contains "TCR" "S_TCR" = true \/
              (contains "original" "original-crop_screen" = true /\
               contains "WNT" "S_TCR" = true)) by (left; reflexivity).
  split; [exact H|]. split; [simpl; auto|].
  destruct (plots_leave_out_other_library mixed_s1 mixed_s2
              "original-crop_screen" [1; 0]%nat 0%nat "S_TCR" H) as [R _].
  refine (proj1 (R None _ _ (mkPoint "Tcr_1" (Some 1%nat) (Some tie_fc)
                               colorblind2) mixed_iteration _) eq_refl).
  now left.
Defined.

(** The join is on the guides of [s1]: a guide that only the screen has is
    not drawn.  For a shuffle within the rows of the frame, every point of
    an iteration of [gRNA_scatter], and of a first iteration of
    [gRNA_rank], is a guide of [s1]. *)
Theorem plots_draw_guides_of_s1 s1 s2 prefix perm i screen :
  Forall (fun k => (k < length (index s1))%nat) perm ->
  (forall carry carry' pts pt,
     gRNA_scatter_iteration s1 s2 prefix perm i screen carry
     = Returned (carry', pts) ->
     In pt pts -> In (guide pt) (index s1)) /\
  (forall carry' pts pt,
     gRNA_rank_iteration s1 s2 prefix perm i screen None
     = Returned (carry', pts) ->
     In pt pts -> In (guide pt) (index s1)).
Proof.
  intros Hperm.
  assert (Hx : forall (T : Type) measure (carry : option T) st g,
             shuffled_branches measure perm s1 s2 prefix screen carry
             = Returned st ->
             In g (index (fst st)) -> In g (index s1)).
  { intros T measure carry st g E Hg.
    apply shuffled_branches_narrowed in E. destruct E as [[keep [_ I]] _].
    rewrite I in Hg. apply filter_In in Hg. destruct Hg as [Hg _].
    apply in_map_iff in Hg. destruct Hg as [k [<- Hk]].
    apply nth_In. rewrite Forall_forall in Hperm. now apply Hperm. }
  split.
  - intros carry carry' pts pt H Hpt.
    unfold gRNA_scatter_iteration in H.
    destruct (shuffled_branches _ perm s1 s2 prefix screen carry)
      as [[x m]|] eqn:E; simpl in H; [|discriminate].
    destruct (colours (index x)) as [cs|]; simpl in H; [|discriminate].
    destruct (axis i); simpl in H; [|discriminate].
    destruct (getcol x screen) as [t|]; simpl in H; [|discriminate].
    destruct m as [b|]; simpl in H; [|discriminate].
    destruct (same_size t b) as [[]|]; simpl in H; [|discriminate].
    inversion H; subst; clear H. apply in_points in Hpt.
    now apply (Hx _ _ _ _ _ E).
  - intros carry' pts pt H Hpt.
    unfold gRNA_rank_iteration in H.
    destruct (shuffled_branches fold_change perm s1 s2 prefix screen None)
      as [[x m]|] eqn:E; simpl in H; [|discriminate].
    destruct m as [fc|]; simpl in H; [|discriminate].
    destruct (colours (index x)) as [cs|]; simpl in H; [|discriminate].
    destruct (axis i); simpl in H; [|discriminate].
    inversion H; subst; clear H. apply in_points in Hpt.
    apply (Hx _ _ _ _ _ E). simpl.
    pose proof (shuffled_branches_narrowed _ _ _ _ _ _ _ _ _ E) as [_ F].
    simpl in F. destruct F as [F|F]; [discriminate|].
    now apply (rank_guides_in_frame x screen fc).
Qed.

Lemma plots_draw_guides_of_s1_witness :
  Forall (fun k => (k < length (index mixed_s1))%nat) [1; 0]%nat /\
  In "Tcr_2"%string (index mixed_s2) /\
  In "Tcr_1"%string (index mixed_s1).
Proof.
  assert (H : Forall (fun k => (k < length (index mixed_s1))%nat) [1; 0]%nat)
    by (repeat constructor).
  split; [exact H|]. split; [simpl; auto|].
  destruct (plots_draw_guides_of_s1 mixed_s1 mixed_s2 "original-crop_screen"
              [1; 0]%nat 0%nat "S_TCR" H) as [_ R].
  refine (R _ _ (mkPoint "Tcr_1" (Some 1%nat) (Some tie_fc) colorblind2)
            mixed_iteration _).
  now left.
Defined.

End PlottedGuideWitnesses.
